(** * Lifecycle of the vLLM server subprocess: model of [vllm_server_manager.py]

    The manager owns two fields, a process handle and a port, and offers
    three operations: [start_server], [wait_for_health], [terminate].
    Everything else it does is a call into the outside world (the clock,
    the child process, the HTTP endpoint, the accelerator runtime).  The
    outside world is modelled by an environment that answers each call in
    turn; the operations are functions in a state-and-exception monad over
    the manager's fields and the world.

    The clock is read in whole nanoseconds; the rounding of the floats that
    [time.monotonic] returns is not modelled.  What the environment may
    answer is left open: a child may exit at any observation, a GET may
    return any status or raise any exception, a spawn may fail, and the
    import of torch and each torch call may raise any exception. *)

From Stdlib Require Import Ascii.
From stdpp Require Import gmap strings pretty.
From Equations Require Import Equations.

Local Open Scope Z_scope.

(** ** Exceptions *)

(** The exception classes the module defines, raises, catches or lets through. *)
Inductive exc_class :=
  | RuntimeError
  | VLLMServerHealthTimeout     (* class VLLMServerHealthTimeout(Exception) *)
  | TimeoutExpired              (* subprocess.TimeoutExpired *)
  | ImportError
  | ModuleNotFoundError         (* subclass of ImportError *)
  | OSError
  | ConnectionError             (* requests.ConnectionError *)
  | ConnectTimeout              (* requests: subclass of ConnectionError *)
  | ReadTimeout.                (* requests: a Timeout, not a ConnectionError *)

Global Instance exc_class_eq_dec : EqDecision exc_class.
Proof. solve_decision. Defined.

(** [subclass c d]: an exception of class [c] is caught by [except d]. *)
Definition subclass (c d : exc_class) : bool :=
  match c, d with
  | ConnectTimeout, ConnectionError => true
  | ModuleNotFoundError, ImportError => true
  | _, _ => bool_decide (c = d)
  end.

Record exn := Exn { exn_class : exc_class; exn_msg : string }.

Global Instance exn_eq_dec : EqDecision exn.
Proof. solve_decision. Defined.

Definition isinstance (e : exn) (c : exc_class) : bool := subclass (exn_class e) c.

Inductive outcome (A : Type) :=
  | Return (a : A)
  | Raise (e : exn).
Arguments Return {A} a.
Arguments Raise {A} e.

(** ** The manager and the world *)

(** A handle names a [subprocess.Popen] object. *)
Definition handle := nat.

(** [self._process] and [self._port]: both [None] or a value. *)
Record Manager := mkManager {
  _process : option handle;
  _port : option Z
}.

Global Instance Manager_eq_dec : EqDecision Manager.
Proof. solve_decision. Defined.

(** What the program does to the outside, in the order it does it.  Reading
    the clock and polling an exit status only observe; they leave no event. *)
Inductive event :=
  | EvPopen (cmd : list string) (h : handle)   (* subprocess.Popen(cmd, stdout=PIPE, stderr=PIPE) *)
  | EvTerminate (h : handle)                   (* Popen.terminate(): SIGTERM *)
  | EvKill (h : handle)                        (* Popen.kill(): SIGKILL *)
  | EvWait (h : handle) (timeout : option Z)   (* Popen.wait(timeout=...) *)
  | EvGet (url : string) (timeout : Z)         (* requests.get(url, timeout=...) *)
  | EvSleep (secs : Z)                         (* time.sleep(secs) *)
  | EvGcCollect                                (* gc.collect() *)
  | EvEmptyCache                               (* torch.cuda.empty_cache() *)
  | EvIpcCollect.                              (* torch.cuda.ipc_collect() *)

Global Instance event_eq_dec : EqDecision event.
Proof. solve_decision. Defined.

(** The clock counts nanoseconds, the resolution of [time.monotonic]. *)
Definition ticks_per_second : Z := 1000000000.

(** The world: the monotonic clock, the number of calls answered so far, the
    [returncode] attribute of every Popen object (absent = [None], the value
    [Popen.__init__] gives it), the next fresh handle and the events so far
    (oldest first). *)
Record World := mkWorld {
  now : Z;
  step : nat;
  returncode : gmap handle Z;
  next_handle : handle;
  trace : list event
}.

(** The answer of the outside world to one call.  Each call reads the fields
    that concern it:
    - [delay]: the time the call takes (beyond what it is bound to take);
    - [exited]: for [poll] and [wait], the exit status if the child has
      exited by now;
    - [response]: for [requests.get], the status code of the response or
      the exception the call raises;
    - [spawn_error]: for [Popen], the message of the [OSError] if the
      spawn fails;
    - [torch_import]: for [import torch], the exception if the import
      fails ([ModuleNotFoundError] when torch is not installed, any other
      class when it is installed and fails to load);
    - [cuda_available]: for [torch.cuda.is_available()], its result or the
      exception it raises;
    - [cuda_error]: for [torch.cuda.empty_cache()] and
      [torch.cuda.ipc_collect()], the exception if the call fails. *)
Record Choice := mkChoice {
  delay : N;
  exited : option Z;
  response : outcome Z;
  spawn_error : option string;
  torch_import : option exn;
  cuda_available : outcome bool;
  cuda_error : option exn
}.

Record Env := mkEnv {
  sys_executable : string;
  choice : nat → Choice
}.

(** ** The monad: state (manager fields and world) and exceptions *)

Record Run (A : Type) := mkRun {
  out : outcome A;
  self_after : Manager;
  world_after : World
}.
Arguments mkRun {A} out self_after world_after.
Arguments out {A} r.
Arguments self_after {A} r.
Arguments world_after {A} r.

Definition M (A : Type) : Type := Manager → World → Run A.

Global Instance M_ret : MRet M := λ A a m w, mkRun (Return a) m w.

Global Instance M_bind : MBind M := λ A B k c m w,
  let r := c m w in
  match out r with
  | Return a => k a (self_after r) (world_after r)
  | Raise e => mkRun (Raise e) (self_after r) (world_after r)
  end.

Definition raise {A} (e : exn) : M A := λ m w, mkRun (Raise e) m w.

(** [try: c except cls: h] *)
Definition try_except {A} (c : M A) (cls : exc_class) (h : M A) : M A := λ m w,
  let r := c m w in
  match out r with
  | Return a => r
  | Raise e => if isinstance e cls then h (self_after r) (world_after r) else r
  end.

(** Field access and assignment on [self]. *)
Definition get_process : M (option handle) := λ m w, mkRun (Return (_process m)) m w.
Definition get_port : M (option Z) := λ m w, mkRun (Return (_port m)) m w.
Definition set_process (p : option handle) : M unit := λ m w,
  mkRun (Return tt) (mkManager p (_port m)) w.
Definition set_port (p : option Z) : M unit := λ m w,
  mkRun (Return tt) (mkManager (_process m) p) w.

(** ** Calls into the outside world *)

Section Primitives.
Variable env : Env.

(** The answer to the call being made. *)
Definition answer (w : World) : Choice := choice env (step w).

(** The call is over: it took [min_ticks] plus the answer's delay. *)
Definition advance (min_ticks : Z) (w : World) : World :=
  mkWorld (now w + min_ticks + Z.of_N (delay (answer w))) (S (step w))
          (returncode w) (next_handle w) (trace w).

Definition emit (ev : event) (w : World) : World :=
  mkWorld (now w) (step w) (returncode w) (next_handle w) (trace w ++ [ev]).

Definition set_returncode (h : handle) (rc : Z) (w : World) : World :=
  mkWorld (now w) (step w) (<[h := rc]> (returncode w)) (next_handle w) (trace w).

(** A new Popen object: a fresh handle whose [returncode] is [None]. *)
Definition alloc (w : World) : handle * World :=
  (next_handle w,
   mkWorld (now w) (step w) (delete (next_handle w) (returncode w))
           (S (next_handle w)) (trace w)).

(** [time.monotonic()] *)
Definition monotonic (w : World) : Z * World :=
  let w' := advance 0 w in (now w', w').

(** [time.sleep(secs)]: at least [secs] seconds pass. *)
Definition sleep (secs : Z) (w : World) : World :=
  advance (secs * ticks_per_second) (emit (EvSleep secs) w).

(** [requests.get(url, timeout=t).status_code] *)
Definition requests_get (url : string) (t : Z) (w : World) : outcome Z * World :=
  (response (answer w), advance 0 (emit (EvGet url t) w)).

(** [Popen.poll()]: the cached [returncode] if there is one; otherwise the
    child is asked, and an exit is cached. *)
Definition poll (h : handle) (w : World) : option Z * World :=
  match returncode w !! h with
  | Some rc => (Some rc, advance 0 w)
  | None =>
      match exited (answer w) with
      | Some rc => (Some rc, advance 0 (set_returncode h rc w))
      | None => (None, advance 0 w)
      end
  end.

(** [Popen.terminate()] *)
Definition proc_terminate (h : handle) (w : World) : World :=
  advance 0 (emit (EvTerminate h) w).

(** [Popen.kill()] *)
Definition proc_kill (h : handle) (w : World) : World :=
  advance 0 (emit (EvKill h) w).

(** [Popen.wait(timeout=t)]: returns once the child has exited; with a
    timeout, raises [TimeoutExpired] after [t] seconds if it has not.
    Without a timeout the call blocks until the exit is reaped (status -9,
    killed, unless the child chose its own). *)
Definition proc_wait (h : handle) (t : option Z) (w : World) : outcome unit * World :=
  let w1 := emit (EvWait h t) w in
  match returncode w !! h with
  | Some _ => (Return tt, advance 0 w1)
  | None =>
      match exited (answer w), t with
      | Some rc, _ => (Return tt, advance 0 (set_returncode h rc w1))
      | None, Some secs =>
          (Raise (Exn TimeoutExpired ""), advance (secs * ticks_per_second) w1)
      | None, None => (Return tt, advance 0 (set_returncode h (-9) w1))
      end
  end.

(** [subprocess.Popen(cmd, stdout=PIPE, stderr=PIPE)] *)
Definition popen (cmd : list string) (w : World) : outcome handle * World :=
  match spawn_error (answer w) with
  | Some msg => (Raise (Exn OSError msg), advance 0 w)
  | None =>
      let '(h, w1) := alloc w in
      (Return h, advance 0 (emit (EvPopen cmd h) w1))
  end.

(** [gc.collect()], [import torch], [torch.cuda.is_available()],
    [torch.cuda.empty_cache()], [torch.cuda.ipc_collect()] *)
Definition gc_collect (w : World) : World := advance 0 (emit EvGcCollect w).
Definition import_torch (w : World) : outcome unit * World :=
  (match torch_import (answer w) with
   | Some e => Raise e
   | None => Return tt
   end,
   advance 0 w).
Definition cuda_is_available (w : World) : outcome bool * World :=
  (cuda_available (answer w), advance 0 w).
Definition cuda_call (ev : event) (w : World) : outcome unit * World :=
  (match cuda_error (answer w) with
   | Some e => Raise e
   | None => Return tt
   end,
   advance 0 (emit ev w)).
Definition cuda_empty_cache : World → outcome unit * World := cuda_call EvEmptyCache.
Definition cuda_ipc_collect : World → outcome unit * World := cuda_call EvIpcCollect.

(** Lifting to the monad. *)
Definition call {A} (f : World → A * World) : M A := λ m w,
  let '(a, w') := f w in mkRun (Return a) m w'.
Definition call_ (f : World → World) : M unit := λ m w,
  mkRun (Return tt) m (f w).
Definition call_exn {A} (f : World → outcome A * World) : M A := λ m w,
  let '(o, w') := f w in mkRun o m w'.

End Primitives.

(** ** The operations of [VLLMServerManager] *)

(** [__init__] *)
Definition init : Manager := mkManager None None.

Inductive loop_exit := Returned | Exhausted.

Section Operations.
Variable env : Env.

Definition already_running : exn :=
  Exn RuntimeError "A vLLM server is already running. Terminate it first.".
Definition not_started : exn :=
  Exn RuntimeError "Server has not been started yet.".
(** [f"{self._port}"] *)
Definition str_port (p : option Z) : string :=
  match p with Some n => pretty n | None => "None" end.
Definition health_timeout (timeout : Z) (p : option Z) : exn :=
  Exn VLLMServerHealthTimeout
      ("vLLM server did not become healthy within " +:+ pretty timeout +:+
       "s on port " +:+ str_port p).

Definition health_url (port : Z) : string :=
  "http://localhost:" +:+ pretty port +:+ "/health".

Definition server_cmd (model_id : string) (port : Z) : list string :=
  [sys_executable env; "-m"; "vllm.entrypoints.openai.api_server";
   "--model"; model_id; "--port"; pretty port].

(** [self._process is not None and self._process.poll() is None] *)
Definition process_alive : M bool :=
  p ← get_process;
  match p with
  | None => mret false
  | Some h => rc ← call (poll env h); mret (bool_decide (rc = None))
  end.

(** Lines 33 to 47: the part of [start_server] after the check. *)
Definition spawn (model_id : string) (port : Z) : M unit :=
  set_port (Some port);;
  h ← call_exn (popen env (server_cmd model_id port));
  set_process (Some h).

Definition start_server (model_id : string) (port : Z) : M unit :=
  alive ← process_alive;
  if alive : bool then raise already_running
  else spawn model_id port.

(** One pass through the [try] block of the polling loop: [true] when the
    block returns from the function (status 200), [false] when control
    reaches the [time.sleep] after it. *)
Definition health_attempt (url : string) : M bool :=
  try_except
    (status ← call_exn (requests_get env url 2);
     mret (bool_decide (status = 200)))
    ConnectionError
    (mret false).

(** The clock never runs backwards over an attempt. *)
Lemma health_attempt_now url m w :
  now w ≤ now (world_after (health_attempt url m w)).
Proof.
  unfold health_attempt, try_except, mbind, M_bind, call_exn, requests_get, mret, M_ret.
  simpl. destruct (response (answer env w)) as [c|e]; simpl; [lia|].
  destruct (isinstance e ConnectionError); simpl; lia.
Qed.

(** Whole seconds from the clock to the deadline, plus one: what the
    polling loop uses up. *)
Definition seconds_left (deadline : Z) (w : World) : nat :=
  Z.to_nat ((deadline - now w) `div` ticks_per_second + 1).

(** Sleeping two seconds before the deadline uses up some of them. *)
Lemma sleep_decreases url deadline m w :
  (fst (monotonic env w) <? deadline) = true →
  (seconds_left deadline
     (sleep env 2 (world_after (health_attempt url m (snd (monotonic env w)))))
   < seconds_left deadline w)%nat.
Proof.
  intros Hlt.
  pose proof (health_attempt_now url m (advance env 0 w)) as Hnow.
  apply Z.ltb_lt in Hlt. simpl in *.
  unfold seconds_left. simpl. unfold ticks_per_second in *.
  set (d := delay (answer env (emit _ _))). clearbody d.
  set (t := now (world_after _)) in *. clearbody t.
  pose proof (Z.div_pos (deadline - now w) 1000000000).
  assert ((deadline - (t + 2 * 1000000000 + Z.of_N d)) `div` 1000000000
          ≤ (deadline - now w - 2 * 1000000000) `div` 1000000000)
    by (apply Z.div_le_mono; lia).
  replace (deadline - now w - 2 * 1000000000)
    with (deadline - now w + (-2) * 1000000000) in * by lia.
  rewrite Z.div_add in * by lia. lia.
Qed.

(** Case analysis that remembers which case it is in. *)
Definition inspect {A : Type} (x : A) : {y : A | x = y} := exist _ x eq_refl.

(** The [while time.monotonic() < deadline:] loop.  Every pass that does
    not leave the loop sleeps two seconds, so the time left to the
    deadline shrinks: the loop ends, whatever the world answers. *)
Equations? health_loop (url : string) (deadline : Z) (m : Manager) (w : World)
  : Run loop_exit by wf (seconds_left deadline w) lt :=
health_loop url deadline m w with inspect (fst (monotonic env w) <? deadline) := {
  | exist _ true Hlt =>
      let r := health_attempt url m (snd (monotonic env w)) in
      match out r with
      | Return true => mkRun (Return Returned) (self_after r) (world_after r)
      | Return false =>
          health_loop url deadline (self_after r) (sleep env 2 (world_after r))
      | Raise e => mkRun (Raise e) (self_after r) (world_after r)
      end
  | exist _ false Hge => mkRun (Return Exhausted) m (snd (monotonic env w)) }.
Proof. subst r. apply sleep_decreases. exact Hlt. Qed.

Definition wait_for_health (timeout : Z) : M unit :=
  p ← get_port;
  match p with
  | None => raise not_started
  | Some port =>
      let url := health_url port in
      t0 ← call (monotonic env);
      let deadline := t0 + timeout * ticks_per_second in
      ex ← health_loop url deadline;
      match ex with
      | Returned => mret tt
      | Exhausted =>
          p' ← get_port;
          raise (health_timeout timeout p')
      end
  end.

(** The world after the escalation: SIGTERM, a wait of five seconds and, if
    that wait times out, SIGKILL and a wait without limit. *)
Definition escalate (h : handle) (w : World) : World :=
  let w1 := proc_terminate env h w in
  match fst (proc_wait env h (Some 5) w1) with
  | Return _ => snd (proc_wait env h (Some 5) w1)
  | Raise _ =>
      snd (proc_wait env h None (proc_kill env h (snd (proc_wait env h (Some 5) w1))))
  end.

(** The world in which the next pass starts, when this one does not leave
    the loop: after the clock reading, the GET and the sleep. *)
Definition next_pass (url : string) (w : World) : World :=
  sleep env 2 (snd (requests_get env url 2 (snd (monotonic env w)))).

(** A GET that leaves the server not ready yet: a response other than 200,
    or a connection failure. *)
Definition not_ready (o : outcome Z) : bool :=
  match o with
  | Return c => negb (bool_decide (c = 200))
  | Raise e => isinstance e ConnectionError
  end.

(** [_free_vram] *)
Definition _free_vram : M unit :=
  call_ (gc_collect env);;
  try_except
    (call_exn (import_torch env);;
     available ← call_exn (cuda_is_available env);
     if available : bool then
       call_exn (cuda_empty_cache env);;
       call_exn (cuda_ipc_collect env)
     else mret tt)
    ImportError
    (mret tt).

Definition terminate : M unit :=
  p ← get_process;
  match p with
  | None => _free_vram
  | Some h =>
      rc ← call (poll env h);
      match rc with
      | Some _ => _free_vram
      | None =>
          (* graceful shutdown, then force kill *)
          call_ (proc_terminate env h);;
          try_except
            (call_exn (proc_wait env h (Some 5)))
            TimeoutExpired
            (call_ (proc_kill env h);;
             call_exn (proc_wait env h None));;
          set_process None;;
          set_port None;;
          _free_vram
      end
  end.

End Operations.



(** The events of the memory-release step. *)
Definition is_memory_event (ev : event) : bool :=
  match ev with
  | EvGcCollect | EvEmptyCache | EvIpcCollect => true
  | _ => false
  end.

(** The invariant of the two fields: a process handle comes with a port. *)
Definition handle_has_port (m : Manager) : Prop :=
  _process m ≠ None → _port m ≠ None.

(** ** Worlds and environments to run the operations in *)

Definition world0 : World := mkWorld 0 0 ∅ 0%nat [].

(** What [import torch] raises where torch is not installed. *)
Definition no_torch : exn := Exn ModuleNotFoundError "No module named 'torch'".

Definition quiet : Choice :=
  mkChoice 0 None (Raise (Exn ConnectionError "refused")) None (Some no_torch) (Return false) None.

(** The child stays alive and the port refuses connections. *)
Definition env_refused : Env := mkEnv "python" (λ _, quiet).

(** The child exits on its own, with status 1, soon after it is spawned. *)
Definition env_child_exits : Env :=
  mkEnv "python" (λ _, mkChoice 0 (Some 1) (Raise (Exn ConnectionError "refused")) None
                         (Some no_torch) (Return false) None).

(** The server accepts the connection but does not answer in time. *)
Definition env_read_timeout : Env :=
  mkEnv "python" (λ _, mkChoice 0 None (Raise (Exn ReadTimeout "timed out")) None
                         (Some no_torch) (Return false) None).

(** The spawn fails; an earlier child has exited. *)
Definition env_spawn_fails : Env :=
  mkEnv "python" (λ _, mkChoice 0 (Some 0) (Return 503) (Some "fork failed")
                         (Some no_torch) (Return false) None).

(** A manager as [start_server(..., 8000)] leaves it, with handle 0. *)
Definition started : Manager := mkManager (Some 0%nat) (Some 8000).

(** The server answers 503 once and 200 from then on; the child exits within
    the grace period when asked to. *)
Definition env_healthy : Env :=
  mkEnv "python" (λ i, mkChoice 500 (if (i <? 9)%nat then None else Some 0)
                         (if (i <? 4)%nat then Return 503 else Return 200)
                         None None (Return true) None).



(** An exception of a torch call, as the world answers it. *)
Definition torch_raises (c : Choice) (e : exn) : Prop :=
  torch_import c = Some e ∨ cuda_available c = Raise e ∨ cuda_error c = Some e.

(** * Properties *)

(** ** What the timeout message tells *)





Ltac unfold_monad :=
  unfold mbind, M_bind, mret, M_ret, raise, try_except, call, call_, call_exn,
    get_process, get_port, set_process, set_port in *.

Ltac unfold_prims :=
  unfold monotonic, sleep, requests_get, poll, proc_terminate, proc_kill,
    proc_wait, popen, alloc, gc_collect, import_torch, cuda_is_available,
    cuda_empty_cache, cuda_ipc_collect, cuda_call in *.

Section Facts.
Variable env : Env.

(** *** The memory-release step *)

Ltac free_vram_step :=
  match goal with
  | |- context [match torch_import ?c with _ => _ end] =>
      destruct (torch_import c) as [?e|] eqn:?Himport
  | |- context [match cuda_available ?c with _ => _ end] =>
      destruct (cuda_available c) as [[]|?e] eqn:?Havailable
  | |- context [match cuda_error ?c with _ => _ end] =>
      destruct (cuda_error c) as [?e|] eqn:?Hcuda
  | |- context [if isinstance ?e ImportError then _ else _] =>
      destruct (isinstance e ImportError) eqn:?Hclass
  end; cbn.

Ltac free_vram_cases :=
  unfold _free_vram; unfold_monad; unfold_prims; cbn; repeat free_vram_step.

Lemma free_vram_self m w : self_after (_free_vram env m w) = m.
Proof. free_vram_cases; reflexivity. Qed.

Lemma free_vram_returncode m w :
  returncode (world_after (_free_vram env m w)) = returncode w.
Proof. free_vram_cases; reflexivity. Qed.

(** [gc.collect()] comes first, and only memory-release events follow. *)
Lemma free_vram_gc_first m w :
  ∃ mem, trace (world_after (_free_vram env m w)) = trace w ++ EvGcCollect :: mem
         ∧ forallb is_memory_event mem = true.
Proof.
  free_vram_cases; rewrite <- ?app_assoc; simpl;
    eexists; (split; [reflexivity|reflexivity]).
Qed.

Lemma free_vram_trace m w :
  ∃ mem, trace (world_after (_free_vram env m w)) = trace w ++ mem
         ∧ forallb is_memory_event mem = true.
Proof.
  destruct (free_vram_gc_first m w) as (mem & Htr & Hmem).
  exists (EvGcCollect :: mem). split; [exact Htr|exact Hmem].
Qed.

(** An exception that leaves [_free_vram] was raised by a torch call and is
    not an [ImportError]. *)
Lemma free_vram_raises m w e :
  out (_free_vram env m w) = Raise e →
  isinstance e ImportError = false
  ∧ ∃ i, (step w < i)%nat ∧ torch_raises (choice env i) e.
Proof.
  unfold torch_raises.
  free_vram_cases; intros Hout; try discriminate; injection Hout as <-;
    (split; [assumption|]); unfold answer in *; simpl in *;
    eexists; (split; [|eauto]); lia.
Qed.

(** When the torch calls raise nothing but [ImportError]s, [_free_vram]
    returns. *)
Lemma free_vram_returns m w :
  (∀ i e, torch_raises (choice env i) e → isinstance e ImportError = true) →
  out (_free_vram env m w) = Return tt.
Proof.
  intros Hquiet.
  destruct (out (_free_vram env m w)) as [[]|e] eqn:Hout; [reflexivity|].
  destruct (free_vram_raises _ _ _ Hout) as (Hne & i & _ & Hi).
  rewrite (Hquiet i e Hi) in Hne. discriminate.
Qed.

(** *** The polling loop *)

(** One pass of the loop, as the source reads. *)
Lemma health_loop_step url deadline m w :
  health_loop env url deadline m w =
    if fst (monotonic env w) <? deadline then
      let r := health_attempt env url m (snd (monotonic env w)) in
      match out r with
      | Return true => mkRun (Return Returned) (self_after r) (world_after r)
      | Return false =>
          health_loop env url deadline (self_after r) (sleep env 2 (world_after r))
      | Raise e => mkRun (Raise e) (self_after r) (world_after r)
      end
    else mkRun (Return Exhausted) m (snd (monotonic env w)).
Proof.
  rewrite health_loop_equation_1.
  refine ((λ H : ∀ p : {y | (fst (monotonic env w) <? deadline) = y},
             health_loop_unfold_clause_1 env url deadline m w p =
             if proj1_sig p then _ else _, H (exist _ _ eq_refl)) _).
  intros [[] Hc]; reflexivity.
Qed.

(** What one attempt does, by the answer to its GET. *)
Lemma health_attempt_cases url m w :
  health_attempt env url m w =
    let w' := snd (requests_get env url 2 w) in
    match response (answer env w) with
    | Return c => mkRun (Return (bool_decide (c = 200))) m w'
    | Raise e =>
        if isinstance e ConnectionError then mkRun (Return false) m w'
        else mkRun (Raise e) m w'
    end.
Proof.
  unfold health_attempt. unfold_monad. unfold_prims. simpl.
  destruct (response (answer env w)) as [c|e]; simpl; [reflexivity|].
  destruct (isinstance e ConnectionError); reflexivity.
Qed.

Lemma health_attempt_self url m w : self_after (health_attempt env url m w) = m.
Proof.
  rewrite health_attempt_cases. simpl.
  destruct (response (answer env w)) as [c|e]; simpl; [reflexivity|].
  destruct (isinstance e ConnectionError); reflexivity.
Qed.

Lemma health_attempt_world url m w :
  world_after (health_attempt env url m w) = snd (requests_get env url 2 w).
Proof.
  rewrite health_attempt_cases. simpl.
  destruct (response (answer env w)) as [c|e]; simpl; [reflexivity|].
  destruct (isinstance e ConnectionError); reflexivity.
Qed.

Lemma step_next_pass url w : step (next_pass env url w) = S (S (S (step w))).
Proof. reflexivity. Qed.

Lemma trace_next_pass url w :
  trace (next_pass env url w) = trace w ++ [EvGet url 2; EvSleep 2].
Proof. simpl. rewrite <- app_assoc. reflexivity. Qed.

(** One pass of the loop, by the clock and the answer to the GET. *)
Lemma health_loop_pass url deadline m w :
  health_loop env url deadline m w =
    let w1 := snd (monotonic env w) in
    let w2 := snd (requests_get env url 2 w1) in
    if now w1 <? deadline then
      match response (answer env w1) with
      | Return c =>
          if bool_decide (c = 200) then mkRun (Return Returned) m w2
          else health_loop env url deadline m (next_pass env url w)
      | Raise e =>
          if isinstance e ConnectionError
          then health_loop env url deadline m (next_pass env url w)
          else mkRun (Raise e) m w2
      end
    else mkRun (Return Exhausted) m w1.
Proof.
  rewrite health_loop_step. cbv zeta.
  change (fst (monotonic env w)) with (now (snd (monotonic env w))).
  destruct (now (snd (monotonic env w)) <? deadline); [|reflexivity].
  rewrite health_attempt_cases. cbv zeta. unfold next_pass.
  destruct (response (answer env (snd (monotonic env w)))) as [c|e].
  - destruct (bool_decide (c = 200)); reflexivity.
  - destruct (isinstance e ConnectionError); reflexivity.
Qed.

(** Induction along the passes of the loop: to show [P] of a world, one
    may assume it of the world the next pass starts in. *)
Lemma health_loop_induction url deadline (P : World → Prop) :
  (∀ w, (now (snd (monotonic env w)) < deadline → P (next_pass env url w)) → P w) →
  ∀ w, P w.
Proof.
  intros Hstep w.
  remember (seconds_left deadline w) as n eqn:Hn.
  revert w Hn. induction n as [n IH] using lt_wf_ind. intros w ->.
  apply Hstep. intros Hlt.
  eapply IH; [|reflexivity]. unfold next_pass.
  rewrite <- (health_attempt_world url init).
  apply sleep_decreases. apply Z.ltb_lt. exact Hlt.
Qed.

Ltac loop_induction url deadline w :=
  revert w;
  match goal with
  | |- ∀ w, @?P w => apply (health_loop_induction url deadline P)
  end;
  intros w.

Ltac loop_pass w H :=
  rewrite health_loop_pass; cbv zeta;
  destruct (Z.ltb_spec (now (snd (monotonic env w))) H) as [?Hlt|?Hge].

(** The loop leaves the manager's fields alone. *)
Lemma health_loop_self url deadline m w :
  self_after (health_loop env url deadline m w) = m.
Proof.
  loop_induction url deadline w. intros IH.
  loop_pass w deadline; [|reflexivity].
  destruct (response (answer env (snd (monotonic env w)))) as [c|e].
  - destruct (bool_decide (c = 200)); auto.
  - destruct (isinstance e ConnectionError); auto.
Qed.

(** Past the deadline the loop is left at once, without a request. *)
Lemma health_loop_expired url deadline m w :
  deadline ≤ now w →
  health_loop env url deadline m w
  = mkRun (Return Exhausted) m (snd (monotonic env w)).
Proof.
  intros Hd. loop_pass w deadline; [|reflexivity].
  simpl in *. lia.
Qed.

(** An exception that leaves the loop was raised by a GET and is not a
    [ConnectionError]. *)
Lemma health_loop_raises url deadline m w e :
  out (health_loop env url deadline m w) = Raise e →
  ∃ i, (step w ≤ i)%nat ∧ response (choice env i) = Raise e
       ∧ isinstance e ConnectionError = false.
Proof.
  loop_induction url deadline w. intros IH.
  assert (Hnext : out (health_loop env url deadline m (next_pass env url w)) = Raise e →
                  now (snd (monotonic env w)) < deadline →
                  ∃ i, (step w ≤ i)%nat ∧ response (choice env i) = Raise e
                       ∧ isinstance e ConnectionError = false).
  { intros H Hlt. destruct (IH Hlt H) as (i & Hi & ?).
    rewrite step_next_pass in Hi. exists i. split; [lia|assumption]. }
  loop_pass w deadline; [|discriminate].
  destruct (response (answer env (snd (monotonic env w)))) as [c|e'] eqn:Hr.
  - destruct (bool_decide (c = 200)); [discriminate|auto].
  - destruct (isinstance e' ConnectionError) eqn:Hc; [auto|].
    simpl. intros [= <-]. exists (S (step w)). split; [lia|]. split; assumption.
Qed.

(** *** [wait_for_health] *)

(** With a port recorded, the call reads the clock, runs the loop and
    raises the timeout when the loop runs out. *)
Lemma wait_for_health_started timeout m w port :
  _port m = Some port →
  wait_for_health env timeout m w =
    let w1 := snd (monotonic env w) in
    let r := health_loop env (health_url port)
               (now w1 + timeout * ticks_per_second) m w1 in
    match out r with
    | Return Returned => mkRun (Return tt) m (world_after r)
    | Return Exhausted =>
        mkRun (Raise (health_timeout timeout (Some port))) m (world_after r)
    | Raise e => mkRun (Raise e) m (world_after r)
    end.
Proof.
  intros Hport. unfold wait_for_health. unfold_monad. simpl. rewrite Hport. simpl.
  set (r := health_loop _ _ _ _ _).
  pose proof (health_loop_self (health_url port)
                (now w + 0 + Z.of_N (delay (answer env w)) + timeout * ticks_per_second)
                m (advance env 0 w)) as Hself.
  fold r in Hself.
  destruct (out r) as [[]|e]; simpl; rewrite Hself; try rewrite Hport; reflexivity.
Qed.

(** [wait_for_health] never assigns to the fields. *)
Lemma wait_for_health_self timeout m w :
  self_after (wait_for_health env timeout m w) = m.
Proof.
  destruct (_port m) as [port|] eqn:Hport.
  - rewrite (wait_for_health_started _ _ _ _ Hport). cbv zeta.
    destruct (out _) as [[]|e]; reflexivity.
  - unfold wait_for_health. unfold_monad. simpl. rewrite Hport. reflexivity.
Qed.

Lemma wait_for_health_no_port timeout m w :
  _port m = None →
  wait_for_health env timeout m w = mkRun (Raise not_started) m w.
Proof.
  intros Hport. unfold wait_for_health. unfold_monad. simpl. rewrite Hport.
  reflexivity.
Qed.

(** C7: on a manager with no port recorded (as before any [start_server]),
    [wait_for_health] raises the usage error, a [RuntimeError] saying the
    server has not been started yet, and does nothing else: the world, and
    so the list of requests made, is as it was. *)
Theorem wait_for_health_before_start timeout m w :
  _port m = None →
  wait_for_health env timeout m w = mkRun (Raise not_started) m w
  ∧ exn_class not_started = RuntimeError.
Proof. intros Hport. split; [apply wait_for_health_no_port, Hport|reflexivity]. Qed.

(** C10: with a port recorded and a timeout of zero or less, the deadline
    has passed when the loop first compares the clock with it: the call
    raises [VLLMServerHealthTimeout] after its two clock readings, and the
    trace gains no event, so no GET was sent. *)
Theorem wait_for_health_nonpositive_timeout timeout m w port :
  _port m = Some port →
  timeout ≤ 0 →
  out (wait_for_health env timeout m w) = Raise (health_timeout timeout (Some port))
  ∧ self_after (wait_for_health env timeout m w) = m
  ∧ trace (world_after (wait_for_health env timeout m w)) = trace w
  ∧ step (world_after (wait_for_health env timeout m w)) = S (S (step w)).
Proof.
  intros Hport Hneg. rewrite (wait_for_health_started _ _ _ _ Hport). cbv zeta.
  rewrite health_loop_expired; [simpl; auto|].
  unfold ticks_per_second. lia.
Qed.

(** *** [start_server] *)

(** The check at the head of [start_server]. *)
Lemma process_alive_cases m w :
  process_alive env m w =
    match _process m with
    | None => mkRun (Return false) m w
    | Some h =>
        mkRun (Return (bool_decide (fst (poll env h w) = None))) m (snd (poll env h w))
    end.
Proof.
  unfold process_alive. unfold_monad. simpl.
  destruct (_process m) as [h|]; [|reflexivity]. simpl.
  destruct (poll env h w) as [rc w']. reflexivity.
Qed.

(** [start_server], by the handle and the answer of the poll. *)
Lemma start_server_cases model_id port m w :
  start_server env model_id port m w =
    match _process m with
    | None => spawn env model_id port m w
    | Some h =>
        if bool_decide (fst (poll env h w) = None)
        then mkRun (Raise already_running) m (snd (poll env h w))
        else spawn env model_id port m (snd (poll env h w))
    end.
Proof.
  unfold start_server. unfold_monad. cbv zeta. rewrite process_alive_cases.
  destruct (_process m) as [h|] eqn:Hp; simpl.
  - destruct (bool_decide (fst (poll env h w) = None)); reflexivity.
  - reflexivity.
Qed.

(** The spawn, by the answer of the world. *)
Lemma spawn_cases model_id port m w :
  spawn env model_id port m w =
    match spawn_error (answer env w) with
    | Some msg =>
        mkRun (Raise (Exn OSError msg)) (mkManager (_process m) (Some port))
              (advance env 0 w)
    | None =>
        mkRun (Return tt) (mkManager (Some (next_handle w)) (Some port))
              (advance env 0
                 (emit (EvPopen (server_cmd env model_id port) (next_handle w))
                    (snd (alloc w))))
    end.
Proof.
  unfold spawn. unfold_monad. unfold popen. simpl.
  destruct (spawn_error (answer env w)); reflexivity.
Qed.

(** *** [terminate] *)

(** A poll that finds the child alive: nothing cached, no exit reported. *)
Lemma poll_alive h w :
  fst (poll env h w) = None ↔ returncode w !! h = None ∧ exited (answer env w) = None.
Proof.
  unfold poll. destruct (returncode w !! h) as [rc|]; simpl.
  - split; [discriminate|]. intros [? _]. discriminate.
  - destruct (exited (answer env w)) as [rc|]; simpl.
    + split; [discriminate|]. intros [_ ?]. discriminate.
    + split; auto.
Qed.

(** A poll that finds the child gone leaves its exit status cached. *)
Lemma poll_exited h w rc :
  fst (poll env h w) = Some rc → returncode (snd (poll env h w)) !! h = Some rc.
Proof.
  unfold poll. destruct (returncode w !! h) as [rc'|] eqn:Hrc; simpl.
  - intros [= <-]. exact Hrc.
  - destruct (exited (answer env w)) as [rc'|]; simpl; [|discriminate].
    intros [= <-]. apply lookup_insert_eq.
  Qed.

(** [terminate], by the handle and the answer of the poll. *)
Lemma terminate_cases m w :
  terminate env m w =
    match _process m with
    | None => _free_vram env m w
    | Some h =>
        match fst (poll env h w) with
        | Some _ => _free_vram env m (snd (poll env h w))
        | None => _free_vram env (mkManager None None) (escalate env h (snd (poll env h w)))
        end
    end.
Proof.
  unfold terminate. unfold_monad. simpl.
  destruct (_process m) as [h|] eqn:Hp; [|reflexivity]. simpl.
  destruct (poll env h w) as [[rc|] w'] eqn:Hpoll; simpl; [reflexivity|].
  assert (Hrc : returncode w' !! h = None).
  { pose proof (proj1 (poll_alive h w)) as Ha. rewrite Hpoll in Ha.
    destruct (Ha eq_refl) as [Hrc Hex]. unfold poll in Hpoll.
    rewrite Hrc, Hex in Hpoll. injection Hpoll as <-. exact Hrc. }
  unfold escalate, proc_wait, proc_terminate, proc_kill. simpl.
  rewrite Hrc. simpl.
  destruct (exited (answer env (advance env 0 (emit (EvTerminate h) w')))) as [rc|];
    simpl; [reflexivity|].
  rewrite Hrc. destruct (exited _) as [rc|]; reflexivity.
Qed.

Lemma poll_cached h w rc :
  returncode w !! h = Some rc → fst (poll env h w) = Some rc.
Proof. intros Hrc. unfold poll. rewrite Hrc. reflexivity. Qed.

(** The escalation, event by event: the kill and the second wait happen
    exactly when the first wait raised [TimeoutExpired].  Either way the
    exit status of the child is known at the end. *)
Lemma escalate_trace h w :
  returncode w !! h = None →
  trace (escalate env h w) =
    trace w ++ EvTerminate h :: EvWait h (Some 5) ::
      match fst (proc_wait env h (Some 5) (proc_terminate env h w)) with
      | Return _ => []
      | Raise _ => [EvKill h; EvWait h None]
      end
  ∧ is_Some (returncode (escalate env h w) !! h).
Proof.
  intros Hrc. unfold escalate, proc_wait, proc_terminate, proc_kill. simpl.
  rewrite Hrc. unfold answer. simpl.
  destruct (exited (choice env (S (step w)))) as [rc|]; simpl.
  - rewrite <- !app_assoc. split; [reflexivity|].
    rewrite lookup_insert_eq. eauto.
  - rewrite Hrc. destruct (exited _) as [rc|]; simpl;
      rewrite <- !app_assoc; (split; [reflexivity|]);
      rewrite lookup_insert_eq; eauto.
Qed.

(** The first wait raises exactly when the child has not exited by then. *)
Lemma grace_wait_cases h w :
  returncode w !! h = None →
  fst (proc_wait env h (Some 5) w)
  = match exited (answer env w) with
    | Some _ => Return tt
    | None => Raise (Exn TimeoutExpired "")
    end.
Proof.
  intros Hrc. unfold proc_wait. rewrite Hrc.
  destruct (exited (answer env w)); reflexivity.
Qed.

(** A handle that [terminate] leaves in place is that of a child whose
    exit status is known. *)
Lemma terminate_leaves_exited m w h :
  _process (self_after (terminate env m w)) = Some h →
  is_Some (returncode (world_after (terminate env m w)) !! h).
Proof.
  rewrite terminate_cases.
  destruct (_process m) as [h'|] eqn:Hp.
  - destruct (fst (poll env h' w)) as [rc|] eqn:Hpoll.
    + rewrite free_vram_self, free_vram_returncode, Hp. intros [= <-].
      rewrite (poll_exited _ _ _ Hpoll). eauto.
    + rewrite free_vram_self. discriminate.
  - rewrite free_vram_self, Hp. discriminate.
Qed.

(** A start on a manager whose child, if any, has a known exit status goes
    on to the spawn. *)
Lemma start_server_not_running model_id port m w :
  (∀ h, _process m = Some h → is_Some (returncode w !! h)) →
  ∃ w', start_server env model_id port m w = spawn env model_id port m w'.
Proof.
  intros Hdead. rewrite start_server_cases.
  destruct (_process m) as [h|]; [|eauto].
  destruct (Hdead h eq_refl) as [rc Hrc].
  rewrite (poll_cached _ _ _ Hrc). rewrite bool_decide_eq_false_2 by discriminate.
  eauto.
Qed.

Lemma spawn_out model_id port m w :
  out (spawn env model_id port m w) ≠ Raise already_running
  ∧ ((∀ i, spawn_error (choice env i) = None) →
     out (spawn env model_id port m w) = Return tt).
Proof.
  rewrite spawn_cases. unfold answer.
  destruct (spawn_error (choice env (step w))) as [msg|] eqn:Hs; simpl.
  - split; [discriminate|]. intros H. rewrite H in Hs. discriminate.
  - split; [discriminate|reflexivity].
Qed.

(** C3: [start_server] raises the usage error, a [RuntimeError] saying a
    server is already running, exactly when a handle is recorded and the
    poll of its exit status finds the child alive.  So a second start while
    the first child is alive raises it; a start after [terminate], or after
    the child has exited, does not, and returns normally when the spawn
    succeeds. *)
Theorem start_server_already_running :
  (∀ model_id port m w,
     out (start_server env model_id port m w) = Raise already_running
     ↔ ∃ h, _process m = Some h ∧ fst (poll env h w) = None)
  ∧ (∀ model_id port m w model_id' port',
       out (start_server env model_id port m w) = Return tt →
       exited (answer env (world_after (start_server env model_id port m w))) = None →
       out (start_server env model_id' port'
              (self_after (start_server env model_id port m w))
              (world_after (start_server env model_id port m w)))
       = Raise already_running)
  ∧ (∀ model_id port m w,
       out (start_server env model_id port
              (self_after (terminate env m w)) (world_after (terminate env m w)))
       ≠ Raise already_running
       ∧ ((∀ i, spawn_error (choice env i) = None) →
          out (start_server env model_id port
                 (self_after (terminate env m w)) (world_after (terminate env m w)))
          = Return tt))
  ∧ (∀ model_id port m w h rc,
       _process m = Some h →
       fst (poll env h w) = Some rc →
       out (start_server env model_id port m w) ≠ Raise already_running
       ∧ ((∀ i, spawn_error (choice env i) = None) →
          out (start_server env model_id port m w) = Return tt)).
Proof.
  assert (Hiff : ∀ model_id port m w,
     out (start_server env model_id port m w) = Raise already_running
     ↔ ∃ h, _process m = Some h ∧ fst (poll env h w) = None).
  { intros model_id port m w. rewrite start_server_cases.
    destruct (_process m) as [h|] eqn:Hp.
    - destruct (bool_decide_reflect (fst (poll env h w) = None)) as [Ha|Hd].
      + simpl. split; [eauto|reflexivity].
      + split.
        * intros H. exfalso. exact (proj1 (spawn_out _ _ _ _) H).
        * intros (h' & [= <-] & Ha). contradiction.
    - split.
      + intros H. exfalso. exact (proj1 (spawn_out _ _ _ _) H).
      + intros (h' & [=] & _). }
  split; [exact Hiff|]. split; [|split].
  - intros model_id port m w model_id' port' Hok Halive.
    apply Hiff. revert Hok Halive. rewrite start_server_cases.
    assert (Hspawn : ∀ w1,
      out (spawn env model_id port m w1) = Return tt →
      exited (answer env (world_after (spawn env model_id port m w1))) = None →
      ∃ h, _process (self_after (spawn env model_id port m w1)) = Some h
           ∧ fst (poll env h (world_after (spawn env model_id port m w1))) = None).
    { intros w1. rewrite spawn_cases.
      destruct (spawn_error (answer env w1)); simpl; [discriminate|].
      intros _ Halive. exists (next_handle w1). split; [reflexivity|].
      apply poll_alive. split; [|exact Halive]. simpl. apply lookup_delete_eq. }
    destruct (_process m) as [h|]; [|apply Hspawn].
    destruct (bool_decide (fst (poll env h w) = None)); [discriminate|apply Hspawn].
  - intros model_id port m w.
    destruct (start_server_not_running model_id port
                (self_after (terminate env m w)) (world_after (terminate env m w)))
      as [w' ->]; [apply terminate_leaves_exited|apply spawn_out].
  - intros model_id port m w h rc Hp Hpoll.
    rewrite start_server_cases, Hp, Hpoll.
    rewrite bool_decide_eq_false_2 by discriminate. apply spawn_out.
Qed.

(** C9: when [start_server] raises anything but the usage error, the
    exception is the spawn's ([OSError]); by then the port field holds the
    new port, while the process-handle field is as it was before the call,
    and no process was created. *)
Theorem start_server_spawn_failure model_id port m w e :
  out (start_server env model_id port m w) = Raise e →
  e ≠ already_running →
  exn_class e = OSError
  ∧ _port (self_after (start_server env model_id port m w)) = Some port
  ∧ _process (self_after (start_server env model_id port m w)) = _process m
  ∧ trace (world_after (start_server env model_id port m w)) = trace w.
Proof.
  rewrite start_server_cases.
  assert (Hspawn : ∀ w1, trace w1 = trace w →
    out (spawn env model_id port m w1) = Raise e →
    exn_class e = OSError
    ∧ _port (self_after (spawn env model_id port m w1)) = Some port
    ∧ _process (self_after (spawn env model_id port m w1)) = _process m
    ∧ trace (world_after (spawn env model_id port m w1)) = trace w).
  { intros w1 Htr. rewrite spawn_cases.
    destruct (spawn_error (answer env w1)); simpl; [|discriminate].
    intros [= <-]. auto. }
  assert (Hpoll : ∀ h, trace (snd (poll env h w)) = trace w).
  { intros h. unfold poll. destruct (returncode w !! h); [reflexivity|].
    destruct (exited (answer env w)); reflexivity. }
  destruct (_process m) as [h|]; [|intros; apply Hspawn; auto].
  destruct (bool_decide (fst (poll env h w) = None)); simpl.
  - intros [= <-] Hne. contradiction.
  - intros; apply Hspawn; auto.
Qed.

(** C8: a recorded process handle comes with a recorded port.  This holds
    of a new manager and, if it holds before a call of [start_server],
    [wait_for_health] or [terminate], it holds after it, whether the call
    returns or raises. *)
Theorem handle_has_port_invariant :
  handle_has_port init
  ∧ ∀ m w,
      handle_has_port m →
      (∀ model_id port,
         handle_has_port (self_after (start_server env model_id port m w)))
      ∧ (∀ timeout, handle_has_port (self_after (wait_for_health env timeout m w)))
      ∧ handle_has_port (self_after (terminate env m w)).
Proof.
  split; [intros H; destruct H; reflexivity|].
  intros m w Hinv. split; [|split].
  - intros model_id port. rewrite start_server_cases.
    assert (Hspawn : ∀ w1, handle_has_port (self_after (spawn env model_id port m w1))).
    { intros w1. rewrite spawn_cases.
      destruct (spawn_error (answer env w1)); intros _; discriminate. }
    destruct (_process m) as [h|]; [|apply Hspawn].
    destruct (bool_decide (fst (poll env h w) = None)); [exact Hinv|apply Hspawn].
  - intros timeout. rewrite wait_for_health_self. exact Hinv.
  - rewrite terminate_cases.
    destruct (_process m) as [h|]; [destruct (fst (poll env h w))|];
      rewrite free_vram_self; try exact Hinv.
    intros H. destruct H. reflexivity.
Qed.

(** The outcome of [terminate] is that of its memory release: nothing else
    in it raises. *)
Lemma terminate_raises m w e :
  out (terminate env m w) = Raise e →
  isinstance e ImportError = false
  ∧ ∃ i, (step w < i)%nat ∧ torch_raises (choice env i) e.
Proof.
  rewrite terminate_cases.
  destruct (_process m) as [h|]; [|apply free_vram_raises].
  assert (Hpoll : step (snd (poll env h w)) = S (step w)).
  { unfold poll. destruct (returncode w !! h); [reflexivity|].
    destruct (exited (answer env w)); reflexivity. }
  destruct (fst (poll env h w)) as [rc|]; intros Hout;
    apply free_vram_raises in Hout as (Hne & i & Hi & Hraise);
    (split; [exact Hne|]); exists i; (split; [|exact Hraise]).
  - rewrite Hpoll in Hi. lia.
  - assert (Hesc : (step (snd (poll env h w)) ≤ step (escalate env h (snd (poll env h w))))%nat).
    { unfold escalate, proc_wait, proc_terminate, proc_kill. simpl.
      repeat (case_match; simpl); lia. }
    lia.
Qed.



(** What [terminate] does to the fields: nothing on its early return, and
    both are cleared after the escalation. *)
Lemma terminate_self m w :
  self_after (terminate env m w)
  = match _process m with
    | None => m
    | Some h =>
        match fst (poll env h w) with
        | Some _ => m
        | None => mkManager None None
        end
    end.
Proof.
  rewrite terminate_cases.
  destruct (_process m) as [h|]; [destruct (fst (poll env h w))|];
    apply free_vram_self.
Qed.

(** C6: when [terminate] finds the tracked child alive, it calls
    [Popen.terminate] (SIGTERM), then [Popen.wait] with a timeout of five
    seconds; if that wait raises [TimeoutExpired], and only then, it calls
    [Popen.kill] (SIGKILL) and then [Popen.wait] without a timeout.  Only
    memory-release events follow; nothing in the escalation raises, so the
    outcome of the call is that of the memory release; the exit status of
    the child is known at the end and both fields are cleared. *)
Theorem terminate_escalation m w h :
  _process m = Some h →
  fst (poll env h w) = None →
  out (terminate env m w)
  = out (_free_vram env (mkManager None None) (escalate env h (snd (poll env h w))))
  ∧ self_after (terminate env m w) = mkManager None None
  ∧ is_Some (returncode (world_after (terminate env m w)) !! h)
  ∧ ∃ mem,
      trace (world_after (terminate env m w))
      = trace w ++ EvTerminate h :: EvWait h (Some 5) ::
          match fst (proc_wait env h (Some 5)
                       (proc_terminate env h (snd (poll env h w)))) with
          | Return _ => []
          | Raise _ => [EvKill h; EvWait h None]
          end ++ mem
      ∧ forallb is_memory_event mem = true.
Proof.
  intros Hp Halive. split; [rewrite terminate_cases, Hp, Halive; reflexivity|].
  split; [rewrite terminate_self, Hp, Halive; reflexivity|].
  rewrite terminate_cases, Hp, Halive.
  apply poll_alive in Halive as Ha. destruct Ha as [Hrc Hex].
  assert (Hw : snd (poll env h w) = advance env 0 w).
  { unfold poll. rewrite Hrc, Hex. reflexivity. }
  rewrite Hw.
  destruct (escalate_trace h (advance env 0 w) Hrc) as [Htr Hsome].
  rewrite free_vram_returncode. split; [exact Hsome|].
  destruct (free_vram_trace (mkManager None None) (escalate env h (advance env 0 w)))
    as (mem & Htr' & Hmem).
  exists mem. split; [|exact Hmem].
  rewrite Htr', Htr. simpl. rewrite <- app_assoc. reflexivity.
Qed.

End Facts.

(** ** The operations at work *)

(** A whole session in a friendly world: start, wait until healthy (one 503,
    then 200), terminate (the child exits within the grace period). *)
Example session_healthy :
  let r1 := start_server env_healthy "TinyLlama/TinyLlama-1.1B-Chat-v1.0" 8000 init world0 in
  let r2 := wait_for_health env_healthy 120 (self_after r1) (world_after r1) in
  let r3 := terminate env_healthy (self_after r2) (world_after r2) in
  out r1 = Return tt ∧ out r2 = Return tt ∧ out r3 = Return tt
  ∧ self_after r2 = started
  ∧ self_after r3 = init
  ∧ trace (world_after r3)
    = [EvPopen ["python"; "-m"; "vllm.entrypoints.openai.api_server"; "--model";
                "TinyLlama/TinyLlama-1.1B-Chat-v1.0"; "--port"; "8000"] 0%nat;
       EvGet "http://localhost:8000/health" 2; EvSleep 2;
       EvGet "http://localhost:8000/health" 2;
       EvTerminate 0%nat; EvWait 0%nat (Some 5);
       EvGcCollect; EvEmptyCache; EvIpcCollect].
Proof. vm_compute. repeat split; reflexivity. Qed.

(** C1: the child was started and has exited on its own; [terminate] then
    returns normally by its early return, and both fields are still set:
    the handle and the port are those [start_server] recorded. *)
Theorem terminate_keeps_fields_of_exited_child :
  out (start_server env_child_exits "m" 8000 init world0) = Return tt
  ∧ out (terminate env_child_exits
           (self_after (start_server env_child_exits "m" 8000 init world0))
           (world_after (start_server env_child_exits "m" 8000 init world0)))
    = Return tt
  ∧ self_after (terminate env_child_exits
                  (self_after (start_server env_child_exits "m" 8000 init world0))
                  (world_after (start_server env_child_exits "m" 8000 init world0)))
    = mkManager (Some 0%nat) (Some 8000).
Proof. vm_compute. repeat split; reflexivity. Qed.

(** Before any start, in a fresh world. *)
Lemma wait_for_health_before_start_witness :
  _port init = None
  ∧ wait_for_health env_refused 120 init world0 = mkRun (Raise not_started) init world0.
Proof.
  split; [reflexivity|].
  apply (wait_for_health_before_start env_refused 120 init world0). reflexivity.
Defined.

(** A timeout of zero, against a server that would answer. *)
Lemma wait_for_health_nonpositive_timeout_witness :
  out (wait_for_health env_healthy 0 started world0)
  = Raise (Exn VLLMServerHealthTimeout
             "vLLM server did not become healthy within 0s on port 8000")
  ∧ trace (world_after (wait_for_health env_healthy 0 started world0)) = [].
Proof.
  destruct (wait_for_health_nonpositive_timeout env_healthy 0 started world0 8000)
    as (Hout & _ & Htr & _); [reflexivity|lia|].
  split; [exact Hout|exact Htr].
Defined.

(** Two starts in a row, and a start after a terminate. *)
Lemma start_server_already_running_witness :
  out (start_server env_refused "m" 8001
         (self_after (start_server env_refused "m" 8000 init world0))
         (world_after (start_server env_refused "m" 8000 init world0)))
  = Raise already_running
  ∧ out (start_server env_refused "m" 8001
           (self_after (terminate env_refused started world0))
           (world_after (terminate env_refused started world0)))
    = Return tt.
Proof.
  destruct (start_server_already_running env_refused) as (_ & Htwice & Hafter & _).
  split.
  - apply Htwice; reflexivity.
  - apply Hafter. intros i. reflexivity.
Defined.

(** A failed spawn on a manager that held port 7000 and a dead child. *)
Lemma start_server_spawn_failure_witness :
  _port (self_after (start_server env_spawn_fails "m" 8000
                       (mkManager (Some 3%nat) (Some 7000)) world0)) = Some 8000
  ∧ _process (self_after (start_server env_spawn_fails "m" 8000
                            (mkManager (Some 3%nat) (Some 7000)) world0)) = Some 3%nat.
Proof.
  destruct (start_server_spawn_failure env_spawn_fails "m" 8000
              (mkManager (Some 3%nat) (Some 7000)) world0 (Exn OSError "fork failed"))
    as (_ & Hport & Hproc & _); [reflexivity|discriminate|].
  split; [exact Hport|exact Hproc].
Defined.

(** The invariant after a failed start, a timed-out wait and a terminate
    that returns early. *)
Lemma handle_has_port_invariant_witness :
  handle_has_port (self_after (start_server env_spawn_fails "m" 8000 init world0))
  ∧ handle_has_port (self_after (wait_for_health env_refused 5 started world0))
  ∧ handle_has_port (self_after (terminate env_child_exits started world0)).
Proof.
  split; [|split].
  - apply (proj2 (handle_has_port_invariant env_spawn_fails) init world0);
      intros H; destruct H; reflexivity.
  - apply (proj2 (handle_has_port_invariant env_refused) started world0).
    intros _. discriminate.
  - apply (proj2 (handle_has_port_invariant env_child_exits) started world0).
    intros _. discriminate.
Defined.

(** A child that ignores SIGTERM: the whole escalation. *)
Lemma terminate_escalation_witness :
  ∃ mem,
    trace (world_after (terminate env_refused started world0))
    = [EvTerminate 0%nat; EvWait 0%nat (Some 5); EvKill 0%nat; EvWait 0%nat None] ++ mem
    ∧ forallb is_memory_event mem = true.
Proof.
  destruct (terminate_escalation env_refused started world0 0%nat)
    as (_ & _ & _ & mem & Htr & Hmem); [reflexivity|reflexivity|].
  exists mem. split; [exact Htr|exact Hmem].
Defined.



(** * Further properties of the operations *)

(** ** Definitions *)

(** The world in which pass [j] of the polling loop starts, when the loop
    was entered in [w] and no earlier pass left it. *)
Fixpoint pass_world (env : Env) (url : string) (w : World) (j : nat) : World :=
  match j with
  | O => w
  | S j' => pass_world env url (next_pass env url w) j'
  end.

(** The events of [n] passes that found the server not ready. *)
Fixpoint retries (url : string) (n : nat) : list event :=
  match n with
  | O => []
  | S n' => EvGet url 2 :: EvSleep 2 :: retries url n'
  end.

(** The events of the polling loop on [url]. *)
Definition is_poll_event (url : string) (ev : event) : bool :=
  bool_decide (ev = EvGet url 2) || bool_decide (ev = EvSleep 2).

Definition is_get (ev : event) : bool :=
  match ev with EvGet _ _ => true | _ => false end.

(** How many GETs a trace holds. *)
Definition count_gets (evs : list event) : nat := length (filter (λ ev, is_get ev = true) evs).





Section Polling.
Variable env : Env.

Lemma trace_pass_world url w j :
  trace (pass_world env url w j) = trace w ++ retries url j.
Proof.
  revert w. induction j as [|j IH]; intros w; simpl.
  - rewrite app_nil_r. reflexivity.
  - rewrite IH, trace_next_pass, <- app_assoc. reflexivity.
Qed.

Lemma now_next_pass url w :
  now (snd (monotonic env w)) + 2 * ticks_per_second ≤ now (next_pass env url w).
Proof. simpl. lia. Qed.

Lemma now_pass_world url w j :
  now w + Z.of_nat j * (2 * ticks_per_second) ≤ now (pass_world env url w j).
Proof.
  revert w. induction j as [|j IH]; intros w.
  - simpl. lia.
  - simpl pass_world. specialize (IH (next_pass env url w)).
    pose proof (now_next_pass url w) as Hn.
    assert (now w ≤ now (snd (monotonic env w))) by (simpl; lia).
    unfold ticks_per_second in *. lia.
Qed.

(** The loop's clock reading of an earlier pass is earlier. *)
Lemma now_first_pass url w j :
  now (snd (monotonic env w)) ≤ now (snd (monotonic env (pass_world env url w j))).
Proof.
  revert w. induction j as [|j IH]; intros w; [reflexivity|].
  simpl pass_world. specialize (IH (next_pass env url w)).
  pose proof (now_next_pass url w) as Hn.
  assert (now (next_pass env url w) ≤ now (snd (monotonic env (next_pass env url w))))
    by (simpl; lia).
  unfold ticks_per_second in *. lia.
Qed.

(** The loop leaves at the first 200. *)
Lemma health_loop_success url deadline m w n :
  (∀ j, (j < n)%nat →
        not_ready (response (answer env (snd (monotonic env (pass_world env url w j))))) = true) →
  response (answer env (snd (monotonic env (pass_world env url w n)))) = Return 200 →
  now (snd (monotonic env (pass_world env url w n))) < deadline →
  health_loop env url deadline m w
  = mkRun (Return Returned) m
      (snd (requests_get env url 2 (snd (monotonic env (pass_world env url w n))))).
Proof.
  revert w. induction n as [|n IH]; intros w Hnr H200 Hlt.
  - simpl pass_world in *. rewrite health_loop_pass. cbv zeta.
    destruct (Z.ltb_spec (now (snd (monotonic env w))) deadline); [|lia].
    rewrite H200. reflexivity.
  - pose proof (now_first_pass url w (S n)) as Hfirst.
    rewrite health_loop_pass. cbv zeta.
    destruct (Z.ltb_spec (now (snd (monotonic env w))) deadline); [|lia].
    specialize (Hnr 0%nat ltac:(lia)) as Hnr0. simpl pass_world in Hnr0.
    assert (Hnext : health_loop env url deadline m (next_pass env url w)
                    = mkRun (Return Returned) m
                        (snd (requests_get env url 2
                           (snd (monotonic env (pass_world env url w (S n))))))).
    { apply IH; [|exact H200|exact Hlt].
      intros j Hj. apply (Hnr (S j)). lia. }
    destruct (response (answer env (snd (monotonic env w)))) as [c|e]; simpl in Hnr0.
    + destruct (bool_decide (c = 200)); [discriminate|exact Hnext].
    + rewrite Hnr0. exact Hnext.
Qed.

(** X2: with a port recorded, when the first [n] GETs find the server not
    ready (another status, or a connection failure), the next one is
    answered 200 and the clock is before the deadline when that pass
    starts, [wait_for_health] returns normally.  It has sent [n + 1] GETs
    and slept [n] times, no more, the fields are as before, and at least
    [2 * n] seconds have passed. *)
Theorem wait_for_health_returns_at_first_200 timeout m w port n :
  _port m = Some port →
  (∀ j, (j < n)%nat →
        not_ready (response (answer env (snd (monotonic env
          (pass_world env (health_url port) (snd (monotonic env w)) j))))) = true) →
  response (answer env (snd (monotonic env
    (pass_world env (health_url port) (snd (monotonic env w)) n)))) = Return 200 →
  now (snd (monotonic env (pass_world env (health_url port) (snd (monotonic env w)) n)))
  < now (snd (monotonic env w)) + timeout * ticks_per_second →
  out (wait_for_health env timeout m w) = Return tt
  ∧ self_after (wait_for_health env timeout m w) = m
  ∧ trace (world_after (wait_for_health env timeout m w))
    = trace w ++ retries (health_url port) n ++ [EvGet (health_url port) 2]
  ∧ now w + Z.of_nat n * (2 * ticks_per_second)
    ≤ now (world_after (wait_for_health env timeout m w)).
Proof.
  intros Hport Hnr H200 Hlt.
  rewrite (wait_for_health_started _ _ _ _ _ Hport). cbv zeta.
  rewrite (health_loop_success _ _ _ _ n Hnr H200 Hlt).
  cbn [out self_after world_after].
  split; [reflexivity|]. split; [reflexivity|]. split.
  - change (trace (snd (requests_get env (health_url port) 2
              (snd (monotonic env (pass_world env (health_url port)
                                     (snd (monotonic env w)) n))))))
      with (trace (pass_world env (health_url port) (snd (monotonic env w)) n)
            ++ [EvGet (health_url port) 2]).
    rewrite trace_pass_world, <- app_assoc. reflexivity.
  - pose proof (now_pass_world (health_url port) (snd (monotonic env w)) n) as Hn.
    set (wn := pass_world env (health_url port) (snd (monotonic env w)) n) in *.
    simpl in *. lia.
Qed.

Ltac loop_induction url deadline w :=
  revert w;
  match goal with
  | |- ∀ w, @?P w => apply (health_loop_induction env url deadline P)
  end;
  intros w.

Ltac loop_pass w H :=
  rewrite health_loop_pass; cbv zeta;
  destruct (Z.ltb_spec (now (snd (monotonic env w))) H) as [?Hlt|?Hge].

(** The loop only sends GETs to its URL and sleeps; it leaves the exit
    statuses and the handles alone. *)
Lemma health_loop_polls_only url deadline m w :
  (∃ evs, trace (world_after (health_loop env url deadline m w)) = trace w ++ evs
          ∧ forallb (is_poll_event url) evs = true)
  ∧ returncode (world_after (health_loop env url deadline m w)) = returncode w
  ∧ next_handle (world_after (health_loop env url deadline m w)) = next_handle w.
Proof.
  loop_induction url deadline w. intros IH.
  assert (Hone : forallb (is_poll_event url) [EvGet url 2] = true).
  { unfold is_poll_event. simpl. rewrite bool_decide_eq_true_2 by reflexivity.
    reflexivity. }
  assert (Hnext : now (snd (monotonic env w)) < deadline →
    (∃ evs, trace (world_after (health_loop env url deadline m (next_pass env url w)))
            = trace w ++ evs ∧ forallb (is_poll_event url) evs = true)
    ∧ returncode (world_after (health_loop env url deadline m (next_pass env url w)))
      = returncode w
    ∧ next_handle (world_after (health_loop env url deadline m (next_pass env url w)))
      = next_handle w).
  { intros Hlt. destruct (IH Hlt) as ((evs & Htr & Hall) & Hrc & Hnh).
    split; [|split; [exact Hrc|exact Hnh]].
    exists ([EvGet url 2; EvSleep 2] ++ evs). split.
    - rewrite Htr, trace_next_pass, <- app_assoc. reflexivity.
    - rewrite forallb_app, Hall, andb_true_r. unfold is_poll_event. simpl.
      rewrite !bool_decide_eq_true_2 by reflexivity. reflexivity. }
  loop_pass w deadline.
  - destruct (response (answer env (snd (monotonic env w)))) as [c|e].
    + destruct (bool_decide (c = 200)); [|auto].
      split; [|split; reflexivity]. exists [EvGet url 2]. split; [reflexivity|exact Hone].
    + destruct (isinstance e ConnectionError); [auto|].
      split; [|split; reflexivity]. exists [EvGet url 2]. split; [reflexivity|exact Hone].
  - split; [|split; reflexivity]. exists []. rewrite app_nil_r. split; reflexivity.
Qed.

(** X3: whatever its outcome, [wait_for_health] only polls: the events it
    adds are GETs to [http://localhost:<port>/health] with a timeout of 2
    and sleeps of 2 seconds.  It assigns to no field, starts no process
    and changes no exit status. *)
Theorem wait_for_health_only_polls timeout m w port :
  _port m = Some port →
  self_after (wait_for_health env timeout m w) = m
  ∧ (∃ evs, trace (world_after (wait_for_health env timeout m w)) = trace w ++ evs
            ∧ forallb (is_poll_event ("http://localhost:" +:+ pretty port +:+ "/health"))
                evs = true)
  ∧ returncode (world_after (wait_for_health env timeout m w)) = returncode w
  ∧ next_handle (world_after (wait_for_health env timeout m w)) = next_handle w.
Proof.
  intros Hport. split; [apply wait_for_health_self|].
  rewrite (wait_for_health_started _ _ _ _ _ Hport). cbv zeta.
  pose proof (health_loop_polls_only (health_url port)
                (now (snd (monotonic env w)) + timeout * ticks_per_second)
                m (snd (monotonic env w))) as Hloop.
  destruct (out (health_loop env _ _ _ _)) as [[]|e]; exact Hloop.
Qed.

Lemma count_gets_app evs evs' : count_gets (evs ++ evs') = (count_gets evs + count_gets evs')%nat.
Proof. unfold count_gets. rewrite filter_app, length_app. reflexivity. Qed.

(** Passes still possible: the time to the deadline, in sleeps of two
    seconds, rounded up. *)
Definition passes_left (deadline : Z) (w : World) : nat :=
  Z.to_nat ((deadline - now w + 2 * ticks_per_second - 1) `div` (2 * ticks_per_second)).

Lemma health_loop_get_bound url deadline m w :
  (count_gets (trace (world_after (health_loop env url deadline m w)))
   ≤ count_gets (trace w) + passes_left deadline w)%nat.
Proof.
  loop_induction url deadline w. intros IH.
  assert (Hstart : now w ≤ now (snd (monotonic env w))) by (simpl; lia).
  assert (Hone : now (snd (monotonic env w)) < deadline → (1 ≤ passes_left deadline w)%nat).
  { intros Hlt. unfold passes_left, ticks_per_second.
    assert (1 ≤ (deadline - now w + 2 * 1000000000 - 1) `div` (2 * 1000000000)); [|lia].
    apply Z.div_le_lower_bound; lia. }
  assert (Hnext : now (snd (monotonic env w)) < deadline →
    (count_gets (trace (world_after (health_loop env url deadline m (next_pass env url w))))
     ≤ count_gets (trace w) + passes_left deadline w)%nat).
  { intros Hlt. specialize (IH Hlt). rewrite trace_next_pass, count_gets_app in IH.
    change (count_gets [EvGet url 2; EvSleep 2]) with 1%nat in IH.
    pose proof (now_next_pass url w) as Hn.
    assert ((S (passes_left deadline (next_pass env url w)) ≤ passes_left deadline w)%nat);
      [|lia].
    unfold passes_left, ticks_per_second in *.
    set (t := now (next_pass env url w)) in *. clearbody t.
    replace (deadline - now w + 2 * 1000000000 - 1)
      with (deadline - now w - 1 + 1 * (2 * 1000000000)) by lia.
    rewrite Z.div_add by lia.
    assert (0 ≤ (deadline - now w - 1) `div` (2 * 1000000000))
      by (apply Z.div_pos; lia).
    assert ((deadline - t + 2 * 1000000000 - 1) `div` (2 * 1000000000)
            ≤ (deadline - now w - 1) `div` (2 * 1000000000))
      by (apply Z.div_le_mono; lia).
    lia. }
  loop_pass w deadline; [|simpl; lia].
  destruct (response (answer env (snd (monotonic env w)))) as [c|e].
  - destruct (bool_decide (c = 200)); [|auto].
    simpl. rewrite count_gets_app. specialize (Hone Hlt).
    change (count_gets [EvGet url 2]) with 1%nat. lia.
  - destruct (isinstance e ConnectionError); [auto|].
    simpl. rewrite count_gets_app. specialize (Hone Hlt).
    change (count_gets [EvGet url 2]) with 1%nat. lia.
Qed.

(** X4: one call of [wait_for_health(timeout)] sends no GET when the
    timeout is zero or less, and at most [timeout / 2 + 1] GETs otherwise,
    however fast the world answers: every pass that does not end the call
    sleeps two seconds.  (On the exact clock of this model the last GET of
    an even timeout is not sent; the bound leaves room for it, as the
    rounding of a float clock can let it through.) *)
Theorem wait_for_health_get_bound timeout m w :
  (count_gets (trace (world_after (wait_for_health env timeout m w)))
   ≤ count_gets (trace w)
     + if (0 <? timeout)%Z then Z.to_nat (timeout `div` 2 + 1) else 0)%nat.
Proof.
  assert (Hslack : (Z.to_nat ((timeout + 1) `div` 2)
                    ≤ if (0 <? timeout)%Z then Z.to_nat (timeout `div` 2 + 1) else 0)%nat).
  { destruct (Z.ltb_spec 0 timeout) as [Hpos|Hneg].
    - assert ((timeout + 1) `div` 2 ≤ timeout `div` 2 + 1); [|lia].
      replace (timeout `div` 2 + 1) with ((timeout + 1 * 2) `div` 2)
        by (rewrite Z.div_add by lia; reflexivity).
      apply Z.div_le_mono; lia.
    - assert ((timeout + 1) `div` 2 ≤ 0); [|lia].
      assert ((timeout + 1) `div` 2 < 1); [|lia].
      apply Z.div_lt_upper_bound; lia. }
  destruct (_port m) as [port|] eqn:Hport.
  2:{ rewrite (wait_for_health_no_port _ _ _ _ Hport). simpl. lia. }
  rewrite (wait_for_health_started _ _ _ _ _ Hport). cbv zeta.
  pose proof (health_loop_get_bound (health_url port)
                (now (snd (monotonic env w)) + timeout * ticks_per_second)
                m (snd (monotonic env w))) as Hloop.
  assert (Hb : (passes_left (now (snd (monotonic env w)) + timeout * ticks_per_second)
                  (snd (monotonic env w))
                ≤ Z.to_nat ((timeout + 1) `div` 2))%nat).
  { unfold passes_left, ticks_per_second.
    set (t := now (snd (monotonic env w))). clearbody t.
    pose proof (Z.mul_succ_div_gt (timeout + 1) 2 ltac:(lia)) as Hq.
    assert ((t + timeout * 1000000000 - t + 2 * 1000000000 - 1) `div` (2 * 1000000000)
            < (timeout + 1) `div` 2 + 1); [|lia].
    apply Z.div_lt_upper_bound; lia. }
  change (trace (snd (monotonic env w))) with (trace w) in Hloop.
  destruct (out (health_loop env _ _ _ _)) as [[]|e]; cbn [world_after]; lia.
Qed.

(** The loop is left by [return] only after a GET answered 200. *)
Lemma health_loop_returned url deadline m w :
  out (health_loop env url deadline m w) = Return Returned →
  ∃ i, (step w ≤ i)%nat ∧ response (choice env i) = Return 200
       ∧ step (world_after (health_loop env url deadline m w)) = S i.
Proof.
  loop_induction url deadline w. intros IH.
  assert (Hnext : now (snd (monotonic env w)) < deadline →
    out (health_loop env url deadline m (next_pass env url w)) = Return Returned →
    ∃ i, (step w ≤ i)%nat ∧ response (choice env i) = Return 200
         ∧ step (world_after (health_loop env url deadline m (next_pass env url w))) = S i).
  { intros Hlt H. destruct (IH Hlt H) as (i & Hi & H200 & Hst).
    rewrite step_next_pass in Hi. exists i. split; [lia|]. split; assumption. }
  loop_pass w deadline; [|discriminate].
  destruct (response (answer env (snd (monotonic env w)))) as [c|e] eqn:Hr.
  - destruct (bool_decide_reflect (c = 200)) as [->|Hne]; [|auto].
    intros _. exists (S (step w)). split; [lia|]. split; [exact Hr|reflexivity].
  - destruct (isinstance e ConnectionError); [auto|discriminate].
Qed.

(** X7: [wait_for_health] reports health only on a 200: when it returns
    normally, a port is recorded, some GET of this call was answered 200,
    and that GET was the last thing the call did. *)
Theorem wait_for_health_returns_only_on_200 timeout m w :
  out (wait_for_health env timeout m w) = Return tt →
  is_Some (_port m)
  ∧ ∃ i, (step w < i)%nat ∧ response (choice env i) = Return 200
         ∧ step (world_after (wait_for_health env timeout m w)) = S i.
Proof.
  destruct (_port m) as [port|] eqn:Hport.
  2:{ rewrite (wait_for_health_no_port _ _ _ _ Hport). discriminate. }
  rewrite (wait_for_health_started _ _ _ _ _ Hport). cbv zeta.
  destruct (out (health_loop env _ _ _ _)) as [[]|e] eqn:Hloop;
    cbn [out world_after]; try discriminate.
  intros _. split; [eauto|].
  destruct (health_loop_returned _ _ _ _ Hloop) as (i & Hi & H200 & Hst).
  exists i. simpl in Hi. split; [lia|]. split; assumption.
Qed.







End Polling.

Section Lifecycle.
Variable env : Env.

(** X1: [_free_vram] assigns to no field and changes no exit status.  It
    runs [gc.collect()] first, and only memory-release events follow.  An
    exception that leaves it was raised by [import torch] or by one of the
    [torch.cuda] calls and is not an [ImportError].  When [import torch]
    fails with an [ImportError] (torch is not installed), the call returns
    normally after [gc.collect()] alone. *)
Theorem free_vram_behaviour m w :
  self_after (_free_vram env m w) = m
  ∧ returncode (world_after (_free_vram env m w)) = returncode w
  ∧ (∃ mem, trace (world_after (_free_vram env m w)) = trace w ++ EvGcCollect :: mem
            ∧ forallb is_memory_event mem = true)
  ∧ (∀ e, out (_free_vram env m w) = Raise e →
        isinstance e ImportError = false
        ∧ ∃ i, (step w < i)%nat ∧ torch_raises (choice env i) e)
  ∧ (∀ e, torch_import (answer env (gc_collect env w)) = Some e →
        isinstance e ImportError = true →
        out (_free_vram env m w) = Return tt
        ∧ trace (world_after (_free_vram env m w)) = trace w ++ [EvGcCollect]).
Proof.
  split; [apply free_vram_self|]. split; [apply free_vram_returncode|].
  split; [apply free_vram_gc_first|]. split; [intros e; apply free_vram_raises|].
  intros e Himp Hcls.
  unfold _free_vram. unfold_monad. unfold_prims. cbn in *.
  rewrite Himp. cbn. rewrite Hcls. split; reflexivity.
Qed.

(** The poll of a live child only takes time. *)
Lemma poll_alive_world h w :
  fst (poll env h w) = None → snd (poll env h w) = advance env 0 w.
Proof.
  intros Ha. apply poll_alive in Ha as [Hrc Hex].
  unfold poll. rewrite Hrc, Hex. reflexivity.
Qed.

(** X5: a [start_server] refused as already running changes nothing: the
    fields (the port among them), the trace, the exit statuses and the
    handles are as before, so no second process is spawned. *)
Theorem start_server_refusal_changes_nothing model_id port m w :
  out (start_server env model_id port m w) = Raise already_running →
  self_after (start_server env model_id port m w) = m
  ∧ trace (world_after (start_server env model_id port m w)) = trace w
  ∧ returncode (world_after (start_server env model_id port m w)) = returncode w
  ∧ next_handle (world_after (start_server env model_id port m w)) = next_handle w.
Proof.
  rewrite start_server_cases.
  destruct (_process m) as [h|].
  - destruct (bool_decide_reflect (fst (poll env h w) = None)) as [Ha|Hd].
    + intros _. cbn [self_after world_after]. rewrite (poll_alive_world _ _ Ha).
      repeat split; reflexivity.
    + intros H. exfalso. exact (proj1 (spawn_out _ _ _ _ _) H).
  - intros H. exfalso. exact (proj1 (spawn_out _ _ _ _ _) H).
Qed.

(** The poll adds no event and takes no handle. *)
Lemma poll_quiet h w :
  trace (snd (poll env h w)) = trace w
  ∧ next_handle (snd (poll env h w)) = next_handle w.
Proof.
  unfold poll. destruct (returncode w !! h); [split; reflexivity|].
  destruct (exited (answer env w)); split; reflexivity.
Qed.

(** What a [start_server] that returns has done. *)
Lemma start_server_return_facts model_id port m w :
  out (start_server env model_id port m w) = Return tt →
  self_after (start_server env model_id port m w)
  = mkManager (Some (next_handle w)) (Some port)
  ∧ trace (world_after (start_server env model_id port m w))
    = trace w ++ [EvPopen (server_cmd env model_id port) (next_handle w)]
  ∧ returncode (world_after (start_server env model_id port m w)) !! next_handle w = None
  ∧ next_handle (world_after (start_server env model_id port m w)) = S (next_handle w).
Proof.
  rewrite start_server_cases.
  assert (Hspawn : ∀ w1, trace w1 = trace w → next_handle w1 = next_handle w →
    out (spawn env model_id port m w1) = Return tt →
    self_after (spawn env model_id port m w1) = mkManager (Some (next_handle w)) (Some port)
    ∧ trace (world_after (spawn env model_id port m w1))
      = trace w ++ [EvPopen (server_cmd env model_id port) (next_handle w)]
    ∧ returncode (world_after (spawn env model_id port m w1)) !! next_handle w = None
    ∧ next_handle (world_after (spawn env model_id port m w1)) = S (next_handle w)).
  { intros w1 Htr Hnh. rewrite spawn_cases.
    destruct (spawn_error (answer env w1)); [discriminate|]. intros _.
    simpl. rewrite Htr, Hnh. repeat split; try reflexivity.
    apply lookup_delete_eq. }
  destruct (_process m) as [h|]; [|apply Hspawn; reflexivity].
  destruct (poll_quiet h w) as [Htr Hnh].
  destruct (bool_decide (fst (poll env h w) = None)); [discriminate|].
  apply Hspawn; assumption.
Qed.

(** X6: a [start_server] that returns has spawned exactly one process, with
    the command line [sys.executable -m vllm.entrypoints.openai.api_server
    --model <model_id> --port <port>]; it has sent no request.  The fields
    hold the new handle, a fresh one whose exit status is not known yet, and
    the port. *)
Theorem start_server_success model_id port m w :
  out (start_server env model_id port m w) = Return tt →
  self_after (start_server env model_id port m w)
  = mkManager (Some (next_handle w)) (Some port)
  ∧ trace (world_after (start_server env model_id port m w))
    = trace w ++ [EvPopen [sys_executable env; "-m"; "vllm.entrypoints.openai.api_server";
                           "--model"; model_id; "--port"; pretty port] (next_handle w)]
  ∧ returncode (world_after (start_server env model_id port m w)) !! next_handle w = None
  ∧ next_handle (world_after (start_server env model_id port m w)) = S (next_handle w).
Proof. apply start_server_return_facts. Qed.

(** The child that [terminate] found tracked has a known exit status
    afterwards. *)
Lemma terminate_reaps m w h :
  _process m = Some h →
  is_Some (returncode (world_after (terminate env m w)) !! h).
Proof.
  intros Hp. rewrite terminate_cases, Hp.
  destruct (fst (poll env h w)) as [rc|] eqn:Hpoll; rewrite free_vram_returncode.
  - rewrite (poll_exited _ _ _ _ Hpoll). eauto.
  - rewrite (poll_alive_world _ _ Hpoll). apply poll_alive in Hpoll as [Hrc _].
    apply (escalate_trace env h (advance env 0 w) Hrc).
Qed.

(** X8: whether [terminate] returns or raises, the exit status of the child
    it found tracked is known afterwards: it was known already, or the poll
    found it, or one of the two waits of the escalation reaped it.  No
    tracked child is left running.  An exception that leaves [terminate]
    comes from the memory release that follows: the [TimeoutExpired] of the
    first wait is caught. *)
Theorem terminate_reaps_tracked_child m w h :
  _process m = Some h →
  is_Some (returncode (world_after (terminate env m w)) !! h)
  ∧ ∀ e, out (terminate env m w) = Raise e →
      isinstance e ImportError = false
      ∧ ∃ i, (step w < i)%nat ∧ torch_raises (choice env i) e.
Proof.
  intros Hp. split; [apply terminate_reaps, Hp|].
  intros e. apply terminate_raises.
Qed.

(** X9: when no handle is recorded, or the poll finds the tracked child
    gone, [terminate] sends no signal and waits for nothing: whatever its
    outcome, the events it adds are those of the memory release alone. *)
Theorem terminate_without_live_child m w :
  (_process m = None ∨ ∃ h rc, _process m = Some h ∧ fst (poll env h w) = Some rc) →
  ∃ mem, trace (world_after (terminate env m w)) = trace w ++ mem
         ∧ forallb is_memory_event mem = true.
Proof.
  intros Hcase. rewrite terminate_cases.
  destruct Hcase as [Hp|(h & rc & Hp & Hpoll)]; rewrite Hp.
  - apply free_vram_trace.
  - rewrite Hpoll.
    destruct (free_vram_trace env m (snd (poll env h w))) as (mem & Htr & Hmem).
    exists mem. split; [|exact Hmem]. rewrite Htr, (proj1 (poll_quiet h w)). reflexivity.
Qed.

(** X10: a start and then a terminate that still finds the child alive: the
    signal and the wait go to the process that the start spawned, and the
    manager is back in the state of a new one. *)
Theorem start_then_terminate model_id port m w :
  out (start_server env model_id port m w) = Return tt →
  exited (answer env (world_after (start_server env model_id port m w))) = None →
  self_after (terminate env (self_after (start_server env model_id port m w))
                (world_after (start_server env model_id port m w))) = init
  ∧ ∃ rest,
      trace (world_after (terminate env (self_after (start_server env model_id port m w))
                            (world_after (start_server env model_id port m w))))
      = trace w ++ EvPopen (server_cmd env model_id port) (next_handle w)
          :: EvTerminate (next_handle w) :: EvWait (next_handle w) (Some 5) :: rest.
Proof.
  intros Hok Halive.
  destruct (start_server_return_facts model_id port m w Hok) as (Hself & Htr & Hrc & _).
  assert (Hp : _process (self_after (start_server env model_id port m w))
               = Some (next_handle w)) by (rewrite Hself; reflexivity).
  set (m1 := self_after (start_server env model_id port m w)) in *.
  set (w1 := world_after (start_server env model_id port m w)) in *.
  assert (Hpoll : fst (poll env (next_handle w) w1) = None)
    by (apply poll_alive; split; assumption).
  rewrite terminate_self, Hp, Hpoll. split; [reflexivity|].
  rewrite terminate_cases, Hp, Hpoll, (poll_alive_world _ _ Hpoll).
  destruct (free_vram_trace env (mkManager None None)
              (escalate env (next_handle w) (advance env 0 w1))) as (mem & Htr' & _).
  destruct (escalate_trace env (next_handle w) (advance env 0 w1) Hrc) as [Hesc _].
  rewrite Htr', Hesc. change (trace (advance env 0 w1)) with (trace w1). rewrite Htr.
  eexists. rewrite <- !app_assoc. simpl. reflexivity.
Qed.

End Lifecycle.

(** ** The smoke test, [test_vllm_server.py] *)

(** The test prints: its state is the manager, the world and the lines
    written to standard output. *)
Definition IO (A : Type) : Type := Manager → World → list string → Run A * list string.

Global Instance IO_ret : MRet IO := λ A a m w s, (mkRun (Return a) m w, s).

Global Instance IO_bind : MBind IO := λ A B k c m w s,
  let '(r, s1) := c m w s in
  match out r with
  | Return a => k a (self_after r) (world_after r) s1
  | Raise e => (mkRun (Raise e) (self_after r) (world_after r), s1)
  end.

(** A method call of the manager. *)
Definition lift {A} (c : M A) : IO A := λ m w s, (c m w, s).

(** [print(line)] *)
Definition print (line : string) : IO unit := λ m w s,
  (mkRun (Return tt) m w, s ++ [line]).

(** [try: body finally: fin]: [fin] runs in every case; then the outcome of
    [body] stands, unless [fin] itself raises. *)
Definition try_finally {A} (body : IO A) (fin : IO unit) : IO A := λ m w s,
  let '(r, s1) := body m w s in
  let '(rf, s2) := fin (self_after r) (world_after r) s1 in
  match out rf with
  | Return _ => (mkRun (out r) (self_after rf) (world_after rf), s2)
  | Raise e => (mkRun (Raise e) (self_after rf) (world_after rf), s2)
  end.

Definition test_model : string := "TinyLlama/TinyLlama-1.1B-Chat-v1.0".
Definition msg_healthy : string := "Server is alive and healthy!".
Definition msg_terminated : string := "Server terminated and VRAM cleared.".

(** [test_vllm_server()], run to its end as [asyncio.run] does (the coroutine
    awaits nothing); [manager = VLLMServerManager()] is the state it starts
    in. *)
Definition test_vllm_server (env : Env) : World → list string → Run unit * list string :=
  try_finally
    (lift (start_server env test_model 8000);;
     lift (wait_for_health env 120);;
     print msg_healthy)
    (lift (terminate env);;
     print msg_terminated)
    init.

(** The [finally] clause of the test, entered with the outcome [o] of the
    body: the exception of [terminate], if it raises one, replaces [o], and
    the last line is not printed. *)
Definition test_finally (env : Env) (o : outcome unit) (m : Manager) (w : World)
    (s : list string) : Run unit * list string :=
  let r := terminate env m w in
  match out r with
  | Return _ => (mkRun o (self_after r) (world_after r), s ++ [msg_terminated])
  | Raise e => (mkRun (Raise e) (self_after r) (world_after r), s)
  end.

Section SmokeTest.
Variable env : Env.

(** The test, by the outcomes of the start and of the wait. *)
Lemma test_vllm_server_cases w s :
  test_vllm_server env w s =
    let r1 := start_server env test_model 8000 init w in
    match out r1 with
    | Raise e => test_finally env (Raise e) (self_after r1) (world_after r1) s
    | Return _ =>
        let r2 := wait_for_health env 120 (self_after r1) (world_after r1) in
        match out r2 with
        | Return _ =>
            test_finally env (Return tt) (self_after r2) (world_after r2)
              (s ++ [msg_healthy])
        | Raise e => test_finally env (Raise e) (self_after r2) (world_after r2) s
        end
    end.
Proof.
  unfold test_vllm_server, test_finally, try_finally, lift, print, mbind, IO_bind.
  cbv zeta.
  destruct (out (start_server env test_model 8000 init w)) as [[]|e] eqn:H1;
    cbn [out self_after world_after].
  - destruct (out (wait_for_health env 120 _ _)) as [[]|e] eqn:H2;
      cbn [out self_after world_after];
      destruct (out (terminate env _ _)) as [[]|e'];
      cbn [out self_after world_after]; reflexivity.
  - destruct (out (terminate env _ _)) as [[]|e']; reflexivity.
Qed.

Lemma test_finally_state o m w s :
  self_after (fst (test_finally env o m w s)) = self_after (terminate env m w)
  ∧ world_after (fst (test_finally env o m w s)) = world_after (terminate env m w).
Proof.
  unfold test_finally. destruct (out (terminate env m w)) as [[]|e]; split; reflexivity.
Qed.

(** The test ends in the state in which some call of [terminate] ends. *)
Lemma test_ends_in_terminate w s :
  ∃ m1 w1, (∃ pre, trace w1 = trace w ++ pre)
    ∧ world_after (fst (test_vllm_server env w s)) = world_after (terminate env m1 w1)
    ∧ (∀ e, out (fst (test_vllm_server env w s)) = Raise e →
         out (terminate env m1 w1) = Raise e
         ∨ (out (terminate env m1 w1) = Return tt
            ∧ (out (start_server env test_model 8000 init w) = Raise e
               ∨ (out (start_server env test_model 8000 init w) = Return tt
                  ∧ out (wait_for_health env 120
                           (self_after (start_server env test_model 8000 init w))
                           (world_after (start_server env test_model 8000 init w)))
                    = Raise e)))).
Proof.
  rewrite test_vllm_server_cases. cbv zeta.
  set (r1 := start_server env test_model 8000 init w).
  assert (Hs1 : ∃ pre, trace (world_after r1) = trace w ++ pre).
  { subst r1. rewrite start_server_cases. cbn [_process init]. rewrite spawn_cases.
    destruct (spawn_error (answer env w)); cbn [world_after].
    - exists []. rewrite app_nil_r. reflexivity.
    - eexists. reflexivity. }
  destruct Hs1 as (pre1 & Htr1).
  assert (Hfin : ∀ o m1 w1 e,
    out (fst (test_finally env o m1 w1 s)) = Raise e →
    out (terminate env m1 w1) = Raise e
    ∨ (out (terminate env m1 w1) = Return tt ∧ o = Raise e)).
  { intros o m1 w1 e. unfold test_finally.
    destruct (out (terminate env m1 w1)) as [[]|e']; cbn [fst out]; intros H; auto. }
  assert (Hfin' : ∀ o m1 w1 e,
    out (fst (test_finally env o m1 w1 (s ++ [msg_healthy]))) = Raise e →
    out (terminate env m1 w1) = Raise e
    ∨ (out (terminate env m1 w1) = Return tt ∧ o = Raise e)).
  { intros o m1 w1 e. unfold test_finally.
    destruct (out (terminate env m1 w1)) as [[]|e']; cbn [fst out]; intros H; auto. }
  destruct (out r1) as [[]|e1] eqn:H1.
  - set (r2 := wait_for_health env 120 (self_after r1) (world_after r1)).
    assert (Hs2 : ∃ pre, trace (world_after r2) = trace (world_after r1) ++ pre).
    { subst r2. destruct (_port (self_after r1)) as [port|] eqn:Hport.
      - rewrite (wait_for_health_started _ _ _ _ _ Hport). cbv zeta.
        destruct (health_loop_polls_only env (health_url port)
          (now (snd (monotonic env (world_after r1))) + 120 * ticks_per_second)
          (self_after r1) (snd (monotonic env (world_after r1))))
          as ((evs & Htr & _) & _).
        destruct (out (health_loop env _ _ _ _)) as [[]|e]; cbn [world_after];
          exists evs; exact Htr.
      - rewrite (wait_for_health_no_port _ _ _ _ Hport). cbn [world_after].
        exists []. rewrite app_nil_r. reflexivity. }
    destruct Hs2 as (pre2 & Htr2).
    exists (self_after r2), (world_after r2).
    split; [exists (pre1 ++ pre2); rewrite Htr2, Htr1, app_assoc; reflexivity|].
    destruct (out r2) as [[]|e2] eqn:H2.
    + split; [apply test_finally_state|].
      intros e He. destruct (Hfin' _ _ _ _ He) as [Ht|[Ht Ho]]; [auto|discriminate].
    + split; [apply test_finally_state|].
      intros e He. destruct (Hfin _ _ _ _ He) as [Ht|[Ht Ho]]; [auto|].
      injection Ho as <-. right. split; [exact Ht|]. right. split; reflexivity.
  - exists (self_after r1), (world_after r1).
    split; [exists pre1; exact Htr1|].
    split; [apply test_finally_state|].
    intros e He. destruct (Hfin _ _ _ _ He) as [Ht|[Ht Ho]]; [auto|].
    injection Ho as <-. right. split; [exact Ht|]. left. reflexivity.
Qed.

Lemma wait_for_health_keeps_returncode timeout m w :
  returncode (world_after (wait_for_health env timeout m w)) = returncode w.
Proof.
  destruct (_port m) as [port|] eqn:Hport.
  - rewrite (wait_for_health_started _ _ _ _ _ Hport). cbv zeta.
    pose proof (health_loop_polls_only env (health_url port)
                  (now (snd (monotonic env w)) + timeout * ticks_per_second)
                  m (snd (monotonic env w))) as (_ & Hrc & _).
    destruct (out (health_loop env _ _ _ _)) as [[]|e]; exact Hrc.
  - rewrite (wait_for_health_no_port _ _ _ _ Hport). reflexivity.
Qed.

(** A start on a new manager raises only if the spawn does, and then
    nothing was spawned. *)
Lemma start_on_init_raises model_id port w e :
  out (start_server env model_id port init w) = Raise e →
  (∃ msg, spawn_error (choice env (step w)) = Some msg ∧ e = Exn OSError msg)
  ∧ self_after (start_server env model_id port init w) = mkManager None (Some port)
  ∧ trace (world_after (start_server env model_id port init w)) = trace w.
Proof.
  rewrite start_server_cases. cbn [_process init]. rewrite spawn_cases. unfold answer.
  destruct (spawn_error (choice env (step w))) as [msg|]; [|discriminate].
  intros [= <-]. repeat split; eauto.
Qed.

(** X11: the test and its two lines.  The test returns normally exactly
    when it has printed "Server is alive and healthy!" and then "Server
    terminated and VRAM cleared.", and nothing else.  In every run, passing
    or not, the [finally] clause has called [terminate]: the last events of
    the run are those of its memory release, from [gc.collect()] on. *)
Theorem test_vllm_server_finally w s :
  (out (fst (test_vllm_server env w s)) = Return tt
   ↔ snd (test_vllm_server env w s)
     = s ++ ["Server is alive and healthy!"; "Server terminated and VRAM cleared."])
  ∧ ∃ pre mem,
      trace (world_after (fst (test_vllm_server env w s)))
      = trace w ++ pre ++ EvGcCollect :: mem
      ∧ forallb is_memory_event mem = true.
Proof.
  split.
  - rewrite test_vllm_server_cases. cbv zeta. unfold test_finally.
    change ["Server is alive and healthy!"; "Server terminated and VRAM cleared."]
      with [msg_healthy; msg_terminated].
    assert (H1 : s ≠ s ++ [msg_healthy; msg_terminated]).
    { intros H. apply (f_equal length) in H. rewrite length_app in H.
      cbn [length] in H. lia. }
    assert (H2 : s ++ [msg_healthy] ≠ s ++ [msg_healthy; msg_terminated]).
    { intros H. apply (f_equal length) in H. rewrite !length_app in H.
      cbn [length] in H. lia. }
    assert (H3 : s ++ [msg_terminated] ≠ s ++ [msg_healthy; msg_terminated]).
    { intros H. apply (f_equal length) in H. rewrite !length_app in H.
      cbn [length] in H. lia. }
    destruct (out (start_server env test_model 8000 init w)) as [[]|e1].
    + generalize (wait_for_health env 120
                    (self_after (start_server env test_model 8000 init w))
                    (world_after (start_server env test_model 8000 init w))).
      intros r2. destruct (out r2) as [[]|e2];
        generalize (terminate env (self_after r2) (world_after r2));
        intros r3; destruct (out r3) as [[]|e3]; cbn [fst snd out].
      * rewrite <- app_assoc. split; reflexivity.
      * split; [discriminate|intros H; exfalso; exact (H2 H)].
      * split; [discriminate|intros H; exfalso; exact (H3 H)].
      * split; [discriminate|intros H; exfalso; exact (H1 H)].
    + generalize (terminate env (self_after (start_server env test_model 8000 init w))
                    (world_after (start_server env test_model 8000 init w))).
      intros r3. destruct (out r3) as [[]|e3]; cbn [fst snd out].
      * split; [discriminate|intros H; exfalso; exact (H3 H)].
      * split; [discriminate|intros H; exfalso; exact (H1 H)].
  - destruct (test_ends_in_terminate w s) as (m1 & w1 & (pre & Htr) & Hw & _).
    rewrite Hw, terminate_cases.
    assert (Hfree : ∀ m2 w2, trace w2 = trace w1 →
      ∃ mem, trace (world_after (_free_vram env m2 w2)) = trace w ++ pre ++ EvGcCollect :: mem
             ∧ forallb is_memory_event mem = true).
    { intros m2 w2 Hw2. destruct (free_vram_gc_first env m2 w2) as (mem & Hm & Hall).
      exists mem. split; [|exact Hall]. rewrite Hm, Hw2, Htr, <- app_assoc. reflexivity. }
    destruct (_process m1) as [h|]; [|destruct (Hfree m1 w1 eq_refl) as (mem & ?); eauto].
    destruct (fst (poll env h w1)) as [rc|] eqn:Hpoll.
    + destruct (Hfree m1 (snd (poll env h w1)) (proj1 (poll_quiet env h w1)))
        as (mem & ?); eauto.
    + apply poll_alive in Hpoll as Ha. destruct Ha as [Hrc _].
      rewrite (poll_alive_world env _ _ Hpoll).
      destruct (escalate_trace env h (advance env 0 w1) Hrc) as [Hesc _].
      destruct (free_vram_gc_first env (mkManager None None)
                  (escalate env h (advance env 0 w1))) as (mem & Hm & Hall).
      change (trace (advance env 0 w1)) with (trace w1) in Hesc.
      match type of Hesc with
      | _ = _ ++ ?evs => exists (pre ++ evs), mem
      end.
      split; [|exact Hall].
      rewrite Hm, Hesc, Htr, <- !app_assoc. reflexivity.
Qed.

(** X12: the test raises no usage error of the manager.  An exception that
    leaves it is the [OSError] of the failed spawn, or the health timeout
    for 120 seconds on port 8000, or the exception of a GET that is not a
    connection failure, or an exception of a torch call of the memory
    release in the [finally] clause that is not an [ImportError]. *)
Theorem test_vllm_server_exceptions w s e :
  out (fst (test_vllm_server env w s)) = Raise e →
  (∃ msg, spawn_error (choice env (step w)) = Some msg ∧ e = Exn OSError msg)
  ∨ e = Exn VLLMServerHealthTimeout
          "vLLM server did not become healthy within 120s on port 8000"
  ∨ (∃ i, response (choice env i) = Raise e ∧ isinstance e ConnectionError = false)
  ∨ (∃ i, torch_raises (choice env i) e ∧ isinstance e ImportError = false).
Proof.
  intros He.
  destruct (test_ends_in_terminate w s) as (m1 & w1 & _ & _ & Hcases).
  destruct (Hcases e He) as [Ht|[_ [H1|[H1 H2]]]].
  - destruct (terminate_raises env _ _ _ Ht) as (Hne & i & _ & Hi).
    right. right. right. eauto.
  - left. apply (start_on_init_raises _ _ _ _ H1).
  - destruct (start_server_return_facts env _ _ _ _ H1) as (Hself & _).
    rewrite Hself in H2.
    rewrite (wait_for_health_started env 120
               (mkManager (Some (next_handle w)) (Some 8000)) _ 8000 eq_refl) in H2.
    cbv zeta in H2.
    destruct (out (health_loop env _ _ _ _)) as [[]|e2] eqn:Hloop;
      cbn [out] in H2; [discriminate| |].
    + injection H2 as <-. right. left. reflexivity.
    + injection H2 as <-. right. right. left.
      destruct (health_loop_raises env _ _ _ _ _ Hloop) as (i & _ & Hi & Hc). eauto.
Qed.

(** X13: the test leaves no server behind.  If its start spawned a process,
    the exit status of that process is known when the test ends, whatever
    the wait did; if the start raised, no process was spawned and the test
    went on to release memory only. *)
Theorem test_vllm_server_leaves_no_child w s :
  (out (start_server env test_model 8000 init w) = Return tt →
   is_Some (returncode (world_after (fst (test_vllm_server env w s))) !! next_handle w))
  ∧ (∀ e, out (start_server env test_model 8000 init w) = Raise e →
       ∃ mem, trace (world_after (fst (test_vllm_server env w s))) = trace w ++ mem
              ∧ forallb is_memory_event mem = true).
Proof.
  split.
  - intros H1. rewrite test_vllm_server_cases. cbv zeta. rewrite H1.
    destruct (start_server_return_facts env _ _ _ _ H1) as (Hself & _).
    assert (Hreap : is_Some (returncode
              (world_after (terminate env
                 (self_after (wait_for_health env 120
                    (self_after (start_server env test_model 8000 init w))
                    (world_after (start_server env test_model 8000 init w))))
                 (world_after (wait_for_health env 120
                    (self_after (start_server env test_model 8000 init w))
                    (world_after (start_server env test_model 8000 init w))))))
              !! next_handle w)).
    { apply terminate_reaps. rewrite wait_for_health_self, Hself. reflexivity. }
    destruct (out (wait_for_health env 120 _ _)) as [[]|e];
      rewrite (proj2 (test_finally_state _ _ _ _)); exact Hreap.
  - intros e H1. rewrite test_vllm_server_cases. cbv zeta. rewrite H1.
    rewrite (proj2 (test_finally_state _ _ _ _)).
    destruct (start_on_init_raises _ _ _ _ H1) as (_ & Hself & Htr).
    rewrite terminate_cases, Hself. cbn [_process]. rewrite <- Htr.
    apply free_vram_trace.
Qed.

End SmokeTest.

(** ** The further properties at work *)

(** One 503, then 200: two GETs and one sleep. *)
Lemma wait_for_health_returns_at_first_200_witness :
  out (wait_for_health env_healthy 120 started world0) = Return tt
  ∧ trace (world_after (wait_for_health env_healthy 120 started world0))
    = [EvGet "http://localhost:8000/health" 2; EvSleep 2;
       EvGet "http://localhost:8000/health" 2].
Proof.
  destruct (wait_for_health_returns_at_first_200 env_healthy 120 started world0 8000 1)
    as (Hout & _ & Htr & _).
  - reflexivity.
  - intros j Hj. assert (j = 0%nat) as -> by lia. reflexivity.
  - reflexivity.
  - vm_compute. reflexivity.
  - split; [exact Hout|exact Htr].
Defined.

(** Five seconds against a port that refuses connections. *)
Lemma wait_for_health_only_polls_witness :
  self_after (wait_for_health env_refused 5 started world0) = started
  ∧ returncode (world_after (wait_for_health env_refused 5 started world0)) = ∅.
Proof.
  destruct (wait_for_health_only_polls env_refused 5 started world0 8000)
    as (Hself & _ & Hrc & _); [reflexivity|].
  split; [exact Hself|exact Hrc].
Defined.

(** A wait that returns in the friendly world. *)
Lemma wait_for_health_returns_only_on_200_witness :
  ∃ i, response (choice env_healthy i) = Return 200
       ∧ step (world_after (wait_for_health env_healthy 120 started world0)) = S i.
Proof.
  destruct (wait_for_health_returns_only_on_200 env_healthy 120 started world0)
    as (_ & i & _ & H200 & Hst); [vm_compute; reflexivity|].
  exists i. split; [exact H200|exact Hst].
Defined.

(** A second start while the child of the first is alive. *)
Lemma start_server_refusal_changes_nothing_witness :
  self_after (start_server env_refused "m" 8001 started world0) = started
  ∧ trace (world_after (start_server env_refused "m" 8001 started world0)) = [].
Proof.
  destruct (start_server_refusal_changes_nothing env_refused "m" 8001 started world0)
    as (Hself & Htr & _); [reflexivity|].
  split; [exact Hself|exact Htr].
Defined.

(** A first start. *)
Lemma start_server_success_witness :
  self_after (start_server env_refused "m" 8000 init world0) = started
  ∧ trace (world_after (start_server env_refused "m" 8000 init world0))
    = [EvPopen ["python"; "-m"; "vllm.entrypoints.openai.api_server";
                "--model"; "m"; "--port"; "8000"] 0%nat].
Proof.
  destruct (start_server_success env_refused "m" 8000 init world0)
    as (Hself & Htr & _); [reflexivity|].
  split; [exact Hself|exact Htr].
Defined.

(** A child that has to be killed. *)
Lemma terminate_reaps_tracked_child_witness :
  is_Some (returncode (world_after (terminate env_refused started world0)) !! 0%nat).
Proof.
  apply (proj1 (terminate_reaps_tracked_child env_refused started world0 0%nat eq_refl)).
Defined.

(** A child that has exited on its own. *)
Lemma terminate_without_live_child_witness :
  ∃ mem, trace (world_after (terminate env_child_exits started world0)) = mem
         ∧ forallb is_memory_event mem = true.
Proof.
  apply (terminate_without_live_child env_child_exits started world0).
  right. exists 0%nat, 1. split; reflexivity.
Defined.

(** Start and terminate with a child that stays alive. *)
Lemma start_then_terminate_witness :
  self_after (terminate env_refused
                (self_after (start_server env_refused "m" 8000 init world0))
                (world_after (start_server env_refused "m" 8000 init world0))) = init.
Proof.
  apply (start_then_terminate env_refused "m" 8000 init world0); reflexivity.
Defined.

(** The test against a server that accepts connections and stays silent. *)
Lemma test_vllm_server_exceptions_witness :
  (∃ msg, spawn_error (choice env_read_timeout 0) = Some msg
          ∧ Exn ReadTimeout "timed out" = Exn OSError msg)
  ∨ Exn ReadTimeout "timed out"
    = Exn VLLMServerHealthTimeout
        "vLLM server did not become healthy within 120s on port 8000"
  ∨ (∃ i, response (choice env_read_timeout i) = Raise (Exn ReadTimeout "timed out")
          ∧ isinstance (Exn ReadTimeout "timed out") ConnectionError = false)
  ∨ (∃ i, torch_raises (choice env_read_timeout i) (Exn ReadTimeout "timed out")
          ∧ isinstance (Exn ReadTimeout "timed out") ImportError = false).
Proof.
  apply (test_vllm_server_exceptions env_read_timeout world0 []).
  vm_compute. reflexivity.
Defined.

(** The test against a port that refuses connections for 120 seconds, and
    the test whose spawn fails. *)
Lemma test_vllm_server_leaves_no_child_witness :
  is_Some (returncode (world_after (fst (test_vllm_server env_refused world0 [])))
             !! 0%nat)
  ∧ ∃ mem, trace (world_after (fst (test_vllm_server env_spawn_fails world0 []))) = mem
           ∧ forallb is_memory_event mem = true.
Proof.
  split.
  - apply (proj1 (test_vllm_server_leaves_no_child env_refused world0 [])). reflexivity.
  - apply (proj2 (test_vllm_server_leaves_no_child env_spawn_fails world0 [])
             (Exn OSError "fork failed")).
    reflexivity.
Defined.

(** The memory release where torch is not installed. *)
Lemma free_vram_behaviour_witness :
  out (_free_vram env_refused init world0) = Return tt
  ∧ trace (world_after (_free_vram env_refused init world0)) = [EvGcCollect].
Proof.
  destruct (free_vram_behaviour env_refused init world0) as (_ & _ & _ & _ & Himport).
  apply (Himport no_torch); reflexivity.
Defined.

(** The test in the friendly world prints its two lines. *)
Lemma test_vllm_server_finally_witness :
  snd (test_vllm_server env_healthy world0 [])
  = ["Server is alive and healthy!"; "Server terminated and VRAM cleared."].
Proof.
  apply (proj1 (proj1 (test_vllm_server_finally env_healthy world0 []))).
  vm_compute. reflexivity.
Defined.




